(** * HospitalFinder: reconciliation of hospital records and the booking workflow

    A shallow embedding of the logic of [src/components/HospitalFinder.tsx]:
    the coordinate key [toKey], the normalisation of provider elements, the
    deduplication through a [Map], the chunked upsert with its merge of the
    returned rows, and the appointment workflow [createAppointmentFor]. *)

From Stdlib Require Import ZArith QArith Qround Qabs Qpower Lia List Bool.
From Stdlib Require Import Strings.String Strings.Ascii Numbers.DecimalString.
From Stdlib Require Import Floats.SpecFloat.
From Stdlib Require DecimalPos DecimalN.
From stdpp Require Import gmap strings.

Import ListNotations.
Local Open Scope string_scope.
Local Open Scope list_scope.

(** ** JavaScript numbers

    A JavaScript number is an IEEE 754 binary64 value.  [spec_float] has
    exactly its cases: signed zeros, signed infinities, NaN, and the finite
    values [(-1)^s * m * 2^e]. *)

Module Number.

Definition number : Type := spec_float.

Definition prec : Z := 53.
Definition emax : Z := 1024.

(** The integer [z] as a binary64 value (exact when [|z| < 2^53]). *)
Definition ofZ (z : Z) : number := binary_normalize prec emax z 0 false.

(** The decimal literal [num / 10^digits]: the binary64 value nearest to
    it, as the reading of a numeric literal gives. *)
Definition ofDecimal (num : Z) (digits : nat) : number :=
  SFdiv prec emax (ofZ num) (ofZ (10 ^ Z.of_nat digits)%Z).

(** Magnitude of a finite value, as an exact rational. *)
Definition magnitude (m : positive) (e : Z) : Q :=
  (inject_Z (Z.pos m) * Qpower 2 e)%Q.

(** The real value of a number that has one. *)
Definition value (x : number) : option Q :=
  match x with
  | S754_zero _ => Some 0%Q
  | S754_finite s m e =>
      Some (if s then Qopp (magnitude m e) else magnitude m e)
  | S754_infinity _ | S754_nan => None
  end.

(** JavaScript truthiness of a number: false for [+0], [-0] and [NaN]. *)
Definition truthy (x : number) : bool :=
  match x with
  | S754_zero _ | S754_nan => false
  | S754_infinity _ | S754_finite _ _ _ => true
  end.

(** Decimal digits of a natural number, ["0"] for zero. *)
Definition digits (n : Z) : string :=
  NilZero.string_of_uint (N.to_uint (Z.to_N n)).

Fixpoint zeros (k : nat) : string :=
  match k with
  | O => ""
  | S k' => String "0" (zeros k')
  end.

(** Steps 11.b-11.c of [Number.prototype.toFixed]: the digits of [n],
    padded with zeros to [f + 1] characters, with the point before the
    last [f] of them. *)
Definition pointed (f : nat) (n : Z) : string :=
  let m := digits n in
  match f with
  | O => m
  | _ =>
      let m := if (String.length m <=? f)%nat
               then zeros (f + 1 - String.length m) +:+ m else m in
      let k := String.length m in
      substring 0 (k - f) m +:+ "." +:+ substring (k - f) f m
  end.

(** The integer [n] for which [n / 10^f - x] is closest to zero, the
    larger one on a tie. *)
Definition scaled (f : nat) (x : Q) : Z :=
  Qfloor (x * inject_Z (10 ^ Z.of_nat f)%Z + (1 # 2))%Q.

Definition tenTo21 : Q := inject_Z (10 ^ 21)%Z.

(** [Number::toString] of the runtime, which [toFixed] falls back on for
    magnitudes of [10^21] and more (an exponent form whose last digit the
    language standard leaves to the implementation). *)
Class Runtime := { numberToString : number -> string }.

(** [x.toFixed(f)] for [0 <= f <= 100]. *)
Definition toFixed `{Runtime} (f : nat) (x : number) : string :=
  match x with
  | S754_nan => "NaN"
  | S754_infinity s => if s then "-Infinity" else "Infinity"
  | S754_zero _ => pointed f 0
  | S754_finite s m e =>
      let sgn := if s then "-" else "" in
      let q := magnitude m e in
      if Qle_bool tenTo21 q
      then sgn +:+ numberToString (S754_finite false m e)
      else sgn +:+ pointed f (scaled f q)
  end.

End Number.

Import Number.

(** ** Data model *)

(** The [message] of an error object ([PostgrestError], [AuthError]). *)
Module Err.
Record t : Type := { message : string }.
End Err.

(** The answer of a store or authentication call, [{ data, error }]: the
    client's type makes it a failure, whose [data] is [null], or a success,
    whose [error] is [null]; the [data] of a success may itself be [null]. *)
Inductive Response (T : Type) : Type :=
| Failure (error : Err.t)
| Success (data : option T).
Arguments Failure {T} error.
Arguments Success {T} data.

(** A durable identifier, [number | string]; a numeric one is an integer. *)
Inductive Ident : Type :=
| IdNum (n : Z)
| IdStr (s : string).

(** Truthiness of an optional identifier: [null], [undefined], [0] and the
    empty string are falsy. *)
Definition identTruthy (i : option Ident) : bool :=
  match i with
  | None => false
  | Some (IdNum n) => negb (n =? 0)%Z
  | Some (IdStr s) => negb (String.eqb s "")
  end.

(** [type HospitalRow]; an optional or [null] field is [None]. *)
Record HospitalRow : Type := {
  row_id : option Ident;
  name : string;
  address : option string;
  latitude : number;
  longitude : number;
  phone : option string;
  specialities : option string;
  emergency_available : option bool
}.

(** A row as the store returns it.  Its coordinates are numbers, on which
    [Number(...)] is the identity. *)
Record DbRow : Type := {
  db_id : option Ident;
  db_name : string;
  db_address : option string;
  db_latitude : number;
  db_longitude : number;
  db_phone : option string;
  db_specialities : option string;
  db_emergency_available : option bool
}.

(** The object written to the [hospitals] table, by the upsert of a chunk
    and by the insert of the booking workflow. *)
Record Payload : Type := {
  p_name : string;
  p_address : option string;
  p_latitude : number;
  p_longitude : number;
  p_phone : option string;
  p_specialities : option string
}.

(** The object written to the [appointments] table. *)
Record Appointment : Type := {
  user_id : option Ident;
  hospital_id : option Ident;
  assessment_id : option Ident;
  notes : option string;
  status : string
}.

(** The authenticated user, with [user.id]. *)
Record User : Type := { uid : string }.

(** The tags of an element that the component reads, each a string when
    present.  [tag_contact_phone] stands for [el.tags?.contact?.phone]. *)
Record Tags : Type := {
  tag_name : option string;
  tag_addr_full : option string;
  tag_addr_street : option string;
  tag_addr_housenumber : option string;
  tag_addr_city : option string;
  tag_description : option string;
  tag_phone : option string;
  tag_contact_phone : option string;
  tag_speciality : option string;
  tag_healthcare : option string;
  tag_emergency : option string
}.

Record Center : Type := { center_lat : option number; center_lon : option number }.

(** An element of the provider's answer; its coordinates are numbers, on
    which [Number(...)] is the identity. *)
Record Element : Type := {
  el_lat : option number;
  el_lon : option number;
  el_center : option Center;
  el_tags : option Tags
}.

(** What [fetch] and [res.json()] gave: a rejected promise, a response that
    is not [ok], or the parsed body with its [elements], if any. *)
Inductive Fetched : Type :=
| Rejected (reason : string)
| NotOk (statusText : string)
| Json (elements : option (list Element)).

(** ** A [Map] with string keys

    [Map] keeps its entries in the order of the first insertion of each key;
    [set] on a key already there replaces the value in place. *)
Module JsMap.

Definition t (V : Type) : Type := list (string * V).

Fixpoint set {V : Type} (k : string) (v : V) (m : t V) : t V :=
  match m with
  | [] => [(k, v)]
  | (k', v') :: m' =>
      if String.eqb k' k then (k, v) :: m' else (k', v') :: set k v m'
  end.

Fixpoint get {V : Type} (k : string) (m : t V) : option V :=
  match m with
  | [] => None
  | (k', v') :: m' => if String.eqb k' k then Some v' else get k m'
  end.

Definition keys {V : Type} (m : t V) : list string := map fst m.
Definition values {V : Type} (m : t V) : list V := map snd m.

End JsMap.

(** ** Component state *)

Record State : Type := {
  syncing : bool;
  hospitals : list HospitalRow;
  error : option string;
  openNoteIdx : option nat;
  notesMap : gmap string string;
  processingMap : gmap string bool;
  message : option string
}.

Definition setSyncing (b : bool) (st : State) : State :=
  {| syncing := b; hospitals := hospitals st; error := error st;
     openNoteIdx := openNoteIdx st; notesMap := notesMap st;
     processingMap := processingMap st; message := message st |}.

Definition setHospitals (f : list HospitalRow -> list HospitalRow) (st : State) : State :=
  {| syncing := syncing st; hospitals := f (hospitals st); error := error st;
     openNoteIdx := openNoteIdx st; notesMap := notesMap st;
     processingMap := processingMap st; message := message st |}.

Definition setError (e : option string) (st : State) : State :=
  {| syncing := syncing st; hospitals := hospitals st; error := e;
     openNoteIdx := openNoteIdx st; notesMap := notesMap st;
     processingMap := processingMap st; message := message st |}.

Definition setOpenNoteIdx (i : option nat) (st : State) : State :=
  {| syncing := syncing st; hospitals := hospitals st; error := error st;
     openNoteIdx := i; notesMap := notesMap st;
     processingMap := processingMap st; message := message st |}.

Definition setNotesMap (f : gmap string string -> gmap string string) (st : State) : State :=
  {| syncing := syncing st; hospitals := hospitals st; error := error st;
     openNoteIdx := openNoteIdx st; notesMap := f (notesMap st);
     processingMap := processingMap st; message := message st |}.

Definition setProcessingMap (f : gmap string bool -> gmap string bool) (st : State) : State :=
  {| syncing := syncing st; hospitals := hospitals st; error := error st;
     openNoteIdx := openNoteIdx st; notesMap := notesMap st;
     processingMap := f (processingMap st); message := message st |}.

Definition setMessage (m : option string) (st : State) : State :=
  {| syncing := syncing st; hospitals := hospitals st; error := error st;
     openNoteIdx := openNoteIdx st; notesMap := notesMap st;
     processingMap := processingMap st; message := m |}.

(** ** The store and the authentication context

    Every call on the [supabase] client, with what was sent. *)
Inductive Call : Type :=
| UpsertHospitals (rows : list Payload)
| SelectHospital (lat lon : number)
| InsertHospital (row : Payload)
| GetUser
| SelectProfile (user : string)
| SelectAssessment (user : string)
| InsertAppointment (row : Appointment).

Definition isWrite (c : Call) : bool :=
  match c with
  | UpsertHospitals _ | InsertHospital _ | InsertAppointment _ => true
  | SelectHospital _ _ | GetUser | SelectProfile _ | SelectAssessment _ => false
  end.

(** The client as the component sees it: each call takes the backend from
    one state to the next and answers.  The rows of a [select("id")] are
    given by their [id]. *)
Class Supabase (B : Type) : Type := {
  upsertHospitals : list Payload -> B -> B * Response (list DbRow);
  selectHospital : number -> number -> B -> B * Response (list (option Ident));
  insertHospital : Payload -> B -> B * Response (list DbRow);
  getUser : B -> B * Response User;
  selectProfile : string -> B -> B * Response (list (option Ident));
  selectAssessment : string -> B -> B * Response (list (option Ident));
  insertAppointment : Appointment -> B -> B * Response (list Appointment)
}.

(** What a run acts on besides the component state: the backend, the calls
    made so far (oldest first) and the console. *)
Record World (B : Type) : Type := {
  backend : B;
  calls : list Call;
  console : list string
}.
Arguments backend {B} w.
Arguments calls {B} w.
Arguments console {B} w.

(** ** The component *)

Section Component.

Context `{Runtime} {B : Type} `{Supabase B}.

(** *** Effects: calls on the client, the console, thrown errors *)

(** A computation over the world that returns or throws an [Error], given
    by its message. *)
Definition Task (A : Type) : Type := World B -> World B * (string + A).

Definition ret {A : Type} (a : A) : Task A := fun w => (w, inr a).

Definition throw {A : Type} (msg : string) : Task A := fun w => (w, inl msg).

Definition bind {A C : Type} (t : Task A) (k : A -> Task C) : Task C :=
  fun w =>
    match t w with
    | (w', inl msg) => (w', inl msg)
    | (w', inr a) => k a w'
    end.

Notation "x <- t ;; k" := (bind t (fun x => k))
  (at level 100, t at next level, right associativity).
Notation "t ;;; k" := (bind t (fun _ => k))
  (at level 100, right associativity).

(** [await] of a call on the client: it is recorded and never throws. *)
Definition call {T : Type} (c : Call) (op : B -> B * Response T) : Task (Response T) :=
  fun w =>
    let (b, r) := op (backend w) in
    ({| backend := b; calls := calls w ++ [c]; console := console w |}, inr r).

(** [console.warn] and [console.error], by their label. *)
Definition logTo (label : string) (w : World B) : World B :=
  {| backend := backend w; calls := calls w; console := console w ++ [label] |}.

Definition log (label : string) : Task unit := fun w => (logTo label w, inr tt).

(** Logs when the answer carries an error. *)
Definition warnOnError {T : Type} (label : string) (r : Response T) : Task unit :=
  match r with
  | Failure _ => log label
  | Success _ => ret tt
  end.

(** *** Helpers *)

(** The key of a coordinate pair: both numbers with six decimals. *)
Definition coordKey (lat lon : number) : string :=
  toFixed 6 lat +:+ "|" +:+ toFixed 6 lon.

Definition toKey (h : HospitalRow) : string :=
  coordKey (latitude h) (longitude h).

(** [a ?? b]. *)
Definition nullish {A : Type} (a b : option A) : option A :=
  match a with
  | Some _ => a
  | None => b
  end.

(** [a || b] on optional strings: the empty string is falsy. *)
Definition orElse (a b : option string) : option string :=
  match a with
  | Some s => if String.eqb s "" then b else a
  | None => b
  end.

Definition stringTruthy (a : option string) : bool :=
  match a with
  | Some s => negb (String.eqb s "")
  | None => false
  end.

(** *** Normalisation of the provider's elements *)

Definition tag (f : Tags -> option string) (el : Element) : option string :=
  match el_tags el with
  | Some t => f t
  | None => None
  end.

(** [parts.filter(Boolean)]. *)
Definition presentParts (parts : list (option string)) : list string :=
  omap (fun p => if stringTruthy p then p else None) parts.

Definition mapElement (el : Element) : option HospitalRow :=
  let latVal := nullish (el_lat el) (match el_center el with
                                     | Some c => center_lat c
                                     | None => None
                                     end) in
  let lonVal := nullish (el_lon el) (match el_center el with
                                     | Some c => center_lon c
                                     | None => None
                                     end) in
  match latVal, lonVal with
  | Some la, Some lo =>
      if truthy la && truthy lo then
        Some {| row_id := None;
                name := default "Unnamed Hospital"
                          (orElse (tag tag_name el) None);
                address :=
                  orElse
                    (orElse (tag tag_addr_full el)
                       (Some (String.concat ", "
                                (presentParts [tag tag_addr_street el;
                                               tag tag_addr_housenumber el;
                                               tag tag_addr_city el]))))
                    (orElse (tag tag_description el) None);
                latitude := la;
                longitude := lo;
                phone := orElse (tag tag_phone el)
                           (orElse (tag tag_contact_phone el) None);
                specialities := orElse (tag tag_speciality el)
                                  (orElse (tag tag_healthcare el) None);
                emergency_available := Some (stringTruthy (tag tag_emergency el)) |}
      else None
  | _, _ => None
  end.

(** [json.elements.map(...).filter(Boolean)]. *)
Definition normalize (elements : list Element) : list HospitalRow :=
  omap mapElement elements.

(** *** Deduplication *)

Definition uniq (mapped : list HospitalRow) : JsMap.t HospitalRow :=
  fold_left (fun m h => JsMap.set (toKey h) h m) mapped [].

Definition dedupe (mapped : list HospitalRow) : list HospitalRow :=
  JsMap.values (uniq mapped).

(** *** Chunked upsert *)

Definition chunkSize : nat := 200.

(** [l.slice(i, j)] for [i <= j]. *)
Definition slice {A : Type} (i j : nat) (l : list A) : list A :=
  firstn (j - i) (skipn i l).

Definition toPayload (h : HospitalRow) : Payload :=
  {| p_name := name h; p_address := address h;
     p_latitude := latitude h; p_longitude := longitude h;
     p_phone := phone h; p_specialities := specialities h |}.

(** The record built from a returned row. *)
Definition fromDb (r : DbRow) : HospitalRow :=
  {| row_id := db_id r; name := db_name r; address := db_address r;
     latitude := db_latitude r; longitude := db_longitude r;
     phone := db_phone r; specialities := db_specialities r;
     emergency_available := Some (default false (db_emergency_available r)) |}.

Definition dbKey (r : DbRow) : string :=
  coordKey (db_latitude r) (db_longitude r).

(** The updater given to [setHospitals] after a successful chunk. *)
Definition mergeRows (data : list DbRow) (prev : list HospitalRow) : list HospitalRow :=
  let m := fold_left (fun m p => JsMap.set (toKey p) p m) prev [] in
  let m := fold_left (fun m r => JsMap.set (dbKey r) (fromDb r) m) data m in
  JsMap.values m.

(** One turn of the loop: the upsert of a chunk and what follows from its
    answer. *)
Definition upsertChunk (chunk : list HospitalRow) (st : State) (w : World B)
  : State * World B :=
  let payload := map toPayload chunk in
  let (b, r) := upsertHospitals payload (backend w) in
  let w' := {| backend := b;
               calls := calls w ++ [UpsertHospitals payload];
               console := console w |} in
  match r with
  | Failure e =>
      (setError (Some ("Supabase upsert error: " +:+ Err.message e)) st,
       logTo "Supabase upsert chunk error" w')
  | Success (Some data) => (setHospitals (mergeRows data) st, w')
  | Success None => (st, w')
  end.

(** [for (let i = ...; i < uniqHospitals.length; i += chunkSize)], from
    index [i] on. *)
Fixpoint upsertLoop (fuel i : nat) (uniqHospitals : list HospitalRow)
  (st : State) (w : World B) : State * World B :=
  match fuel with
  | O => (st, w)
  | S fuel' =>
      if (i <? length uniqHospitals)%nat then
        let (st', w') :=
          upsertChunk (slice i (i + chunkSize) uniqHospitals) st w in
        upsertLoop fuel' (i + chunkSize) uniqHospitals st' w'
      else (st, w)
  end.

(** The updater of the last [setHospitals]. *)
Definition fallback (uniqHospitals prev : list HospitalRow) : list HospitalRow :=
  match prev with
  | [] => uniqHospitals
  | _ :: _ => prev
  end.

(** The chunked upsert of the deduplicated records and the fallback. *)
Definition reconcile (uniqHospitals : list HospitalRow) (st : State) (w : World B)
  : State * World B :=
  let (st', w') := upsertLoop (length uniqHospitals) 0 uniqHospitals st w in
  (setHospitals (fallback uniqHospitals) st', w').

(** [syncHospitalsAround], from the answer of the provider on; the third
    component is the message of the error thrown, if one was. *)
Definition syncHospitalsAround (fetched : Fetched) (st : State) (w : World B)
  : State * World B * option string :=
  let st := setError None (setSyncing true st) in
  match fetched with
  | Rejected reason => (st, w, Some reason)
  | NotOk statusText =>
      (setSyncing false st, w, Some ("Overpass API error: " +:+ statusText))
  | Json None | Json (Some []) =>
      (setSyncing false (setHospitals (fun _ => []) st), w, None)
  | Json (Some elements) =>
      let mapped := normalize elements in
      let uniqHospitals := dedupe mapped in
      let (st', w') := reconcile uniqHospitals st w in
      (setSyncing false st', w', None)
  end.

(** *** The appointment workflow *)

(** The first row's [id] of a [select("id")], or [null]. *)
Definition firstId (r : Response (list (option Ident))) : option Ident :=
  match r with
  | Success (Some (i :: _)) => i
  | _ => None
  end.

(** Step 1: the durable id of the hospital, looked up by its exact
    coordinates and, without a truthy id, inserted. *)
Definition resolveHospitalId (h : HospitalRow) : Task (option Ident) :=
  found <- call (SelectHospital (latitude h) (longitude h))
             (selectHospital (latitude h) (longitude h)) ;;
  warnOnError "find hospital err" found ;;;
  if identTruthy (firstId found) then ret (firstId found)
  else
    ins <- call (InsertHospital (toPayload h)) (insertHospital (toPayload h)) ;;
    match ins with
    | Failure e =>
        throw ("Failed to create hospital record: " +:+ Err.message e)
    | Success (Some (r :: _)) => ret (db_id r)
    | Success _ => ret None
    end.

(** Step 2: the authenticated user. *)
Definition currentUser : Task User :=
  userData <- call GetUser getUser ;;
  match userData with
  | Failure e => throw ("Auth fetch error: " +:+ Err.message e)
  | Success None => throw "User not authenticated"
  | Success (Some u) => ret u
  end.

(** [profileRows && profileRows.length > 0 ? profileRows[0].id : user.id]. *)
Definition profileRef (user : User) (profileRows : Response (list (option Ident)))
  : option Ident :=
  match profileRows with
  | Success (Some (i :: _)) => i
  | _ => Some (IdStr (uid user))
  end.

(** The object given to the insert of the appointment. *)
Definition appointmentOf (key : string) (st : State) (hospital : option Ident)
  (user : User) (profileRows assessments : Response (list (option Ident)))
  : Appointment :=
  {| user_id := profileRef user profileRows; hospital_id := hospital;
     assessment_id := firstId assessments;
     notes := notesMap st !! key; status := "pending" |}.

(** Steps 3 to 5: the profile, the latest assessment, and the insert of the
    appointment. *)
Definition bookFor (key : string) (st : State) (hospital : option Ident)
  (user : User) : Task unit :=
  profileRows <- call (SelectProfile (uid user)) (selectProfile (uid user)) ;;
  warnOnError "profile lookup error" profileRows ;;;
  assessments <- call (SelectAssessment (uid user)) (selectAssessment (uid user)) ;;
  warnOnError "assessment lookup error" assessments ;;;
  let appointment :=
    appointmentOf key st hospital user profileRows assessments in
  appt <- call (InsertAppointment appointment) (insertAppointment appointment) ;;
  match appt with
  | Failure e => throw ("Appointment insert error: " +:+ Err.message e)
  | Success _ => ret tt
  end.

(** The body of the [try] block. *)
Definition createBody (h : HospitalRow) (key : string) (st : State) : Task unit :=
  hospital <- resolveHospitalId h ;;
  user <- currentUser ;;
  bookFor key st hospital user.

(** [e?.message || String(e)] for a thrown [Error]. *)
Definition shown (msg : string) : string :=
  if String.eqb msg "" then "Error" else msg.

Definition createAppointmentFor (h : HospitalRow) (st : State) (w : World B)
  : State * World B :=
  let key := toKey h in
  let st1 := setMessage None (setProcessingMap (insert key true) st) in
  let (st2, w2) :=
    match createBody h key st w with
    | (w1, inr _) =>
        (setNotesMap (delete key)
           (setOpenNoteIdx None
              (setMessage (Some "Appointment created (status: pending).") st1)),
         w1)
    | (w1, inl msg) =>
        (setMessage (Some ("Error creating appointment: " +:+ shown msg)) st1,
         logTo "createAppointmentFor error" w1)
    end in
  (setProcessingMap (insert key false) st2, w2).

End Component.

(** ** The rest of the component: location, handlers, what is rendered *)

(** The component state with the two variables the location step owns. *)
Record Page : Type := {
  core : State;
  loading : bool;
  userLocation : option (number * number)
}.

Definition setLoading (b : bool) (pg : Page) : Page :=
  {| core := core pg; loading := b; userLocation := userLocation pg |}.

Definition setUserLocation (l : option (number * number)) (pg : Page) : Page :=
  {| core := core pg; loading := loading pg; userLocation := l |}.

(** A setter of the other variables, on the page. *)
Definition onCore (f : State -> State) (pg : Page) : Page :=
  {| core := f (core pg); loading := loading pg; userLocation := userLocation pg |}.

(** What the browser's geolocation gave: none in this browser, the error
    callback, or the success callback with a position. *)
Inductive Located : Type :=
| Unsupported
| Unavailable
| Position (lat lon : number).

(** The state of the component when it mounts. *)
Definition initialPage : Page :=
  {| core := {| syncing := false; hospitals := []; error := None;
                openNoteIdx := None; notesMap := ∅; processingMap := ∅;
                message := None |};
     loading := true;
     userLocation := None |}.

Section Handlers.

Context `{Runtime} {B : Type} `{Supabase B}.

(** [requestLocationAndSync], given what the geolocation and the provider
    gave. *)
Definition requestLocationAndSync (located : Located) (fetched : Fetched)
  (pg : Page) (w : World B) : Page * World B :=
  let pg := onCore (setMessage None) (onCore (setError None) (setLoading true pg)) in
  match located with
  | Unsupported =>
      (setLoading false
         (onCore (setError (Some "Geolocation not supported by this browser.")) pg),
       w)
  | Unavailable =>
      (setLoading false
         (onCore (setError
                    (Some "Unable to access location. Please allow location access."))
            pg),
       logTo "geolocation error" w)
  | Position lat lon =>
      let pg := setUserLocation (Some (lat, lon)) pg in
      match syncHospitalsAround fetched (core pg) w with
      | (st, w', None) => (setLoading false (onCore (fun _ => st) pg), w')
      | (st, w', Some msg) =>
          (setLoading false
             (onCore (setError (Some ("Failed to sync hospitals: " +:+ msg)))
                (onCore (fun _ => st) pg)),
           logTo "syncHospitalsAround error" w')
      end
  end.

(** [handleNoteChange]. *)
Definition handleNoteChange (h : HospitalRow) (value : string) (st : State) : State :=
  setNotesMap (insert (toKey h) value) st.

(** [processingMap[key] ?? false], which disables the confirm button. *)
Definition processing (h : HospitalRow) (st : State) : bool :=
  default false (processingMap st !! toKey h).

(** [notesMap[key] ?? ""], the text the note field shows. *)
Definition noteShown (h : HospitalRow) (st : State) : string :=
  default "" (notesMap st !! toKey h).

End Handlers.

(** The click on "Clear". *)
Definition clearAll (st : State) : State :=
  setOpenNoteIdx None (setMessage None (setHospitals (fun _ => []) st)).

(** [disabled={loading || syncing}] of the "Sync hospitals" button. *)
Definition syncDisabled (pg : Page) : bool :=
  loading pg || syncing (core pg).


(** * Sample inputs

    The inputs at which the properties below are tried. *)

Module Sample.

(** A runtime for the samples, whose numbers all stay below [10^21]. *)
Definition runtime : Runtime := {| numberToString := fun _ => "1e+21" |}.

(** The literals [40.0], [40.000001], [40.0000004], [40.0000006],
    [-73.0], [-73.000001] and [-73.0000003]. *)
Definition lat40 : number := Eval vm_compute in ofDecimal 400 1.
Definition lat40_000001 : number := Eval vm_compute in ofDecimal 40000001 6.
Definition lat40_0000004 : number := Eval vm_compute in ofDecimal 400000004 7.
Definition lat40_0000006 : number := Eval vm_compute in ofDecimal 400000006 7.
Definition lon73 : number := Eval vm_compute in ofDecimal (-730) 1.
Definition lon73_000001 : number := Eval vm_compute in ofDecimal (-73000001) 6.
Definition lon73_0000003 : number := Eval vm_compute in ofDecimal (-730000003) 7.

Definition tagsNamed (n : string) : Tags :=
  {| tag_name := Some n; tag_addr_full := None; tag_addr_street := None;
     tag_addr_housenumber := None; tag_addr_city := None;
     tag_description := None; tag_phone := None; tag_contact_phone := None;
     tag_speciality := None; tag_healthcare := None; tag_emergency := None |}.

(** [{lat: 40.0, lon: -73.0, tags: {name: "A"}}]. *)
Definition elementA : Element :=
  {| el_lat := Some lat40; el_lon := Some lon73; el_center := None;
     el_tags := Some (tagsNamed "A") |}.

(** [{center: {lat: 40.000001, lon: -73.000001}, tags: {name: "B"}}]. *)
Definition elementB : Element :=
  {| el_lat := None; el_lon := None;
     el_center := Some {| center_lat := Some lat40_000001;
                          center_lon := Some lon73_000001 |};
     el_tags := Some (tagsNamed "B") |}.

Definition hospitalAt (n : string) (lat lon : number) : HospitalRow :=
  {| row_id := None; name := n; address := None; latitude := lat;
     longitude := lon; phone := None; specialities := None;
     emergency_available := Some false |}.

(** 401 hospitals, a thousandth of a degree apart: three chunks. *)
Definition manyHospitals : list HospitalRow :=
  map (fun i => hospitalAt "H" (ofDecimal (40000 + Z.of_nat i) 3) lon73) (seq 0 401).

Definition emptyState : State :=
  {| syncing := false; hospitals := []; error := None; openNoteIdx := None;
     notesMap := ∅; processingMap := ∅; message := None |}.

(** The state a former run left, with one hospital shown. *)
Definition staleState : State :=
  {| syncing := false; hospitals := [hospitalAt "Old" lat40_000001 lon73_000001];
     error := None; openNoteIdx := None;
     notesMap := ∅; processingMap := ∅; message := None |}.

Definition world (b : nat) : World nat :=
  {| backend := b; calls := []; console := [] |}.

(** The row the store gives back for a written object. *)
Definition stored (i : Z) (p : Payload) : DbRow :=
  {| db_id := Some (IdNum i); db_name := p_name p; db_address := p_address p;
     db_latitude := p_latitude p; db_longitude := p_longitude p;
     db_phone := p_phone p; db_specialities := p_specialities p;
     db_emergency_available := None |}.

Definition timeout : Err.t := {| Err.message := "timeout" |}.

Definition alice : User := {| uid := "alice" |}.

(** A backend that counts the calls and answers as told. *)
Definition scripted
  (upsert : nat -> list Payload -> Response (list DbRow))
  (found : Response (list (option Ident)))
  (inserted : Payload -> Response (list DbRow))
  (user : Response User)
  (profile assessment : Response (list (option Ident)))
  (booked : Appointment -> Response (list Appointment)) : Supabase nat :=
  {| upsertHospitals := fun p n => (S n, upsert n p);
     selectHospital := fun _ _ n => (S n, found);
     insertHospital := fun p n => (S n, inserted p);
     getUser := fun n => (S n, user);
     selectProfile := fun _ n => (S n, profile);
     selectAssessment := fun _ n => (S n, assessment);
     insertAppointment := fun a n => (S n, booked a) |}.

(** The store writes every chunk but the second, whose upsert fails. *)
Definition secondUpsertFails : Supabase nat :=
  scripted (fun n p => if (n =? 1)%nat then Failure timeout
                       else Success (Some (map (stored 1) p)))
    (Success (Some [])) (fun p => Success (Some [stored 1 p]))
    (Success (Some alice)) (Success (Some [])) (Success (Some []))
    (fun a => Success (Some [a])).

(** Every write to the store fails. *)
Definition storeDown : Supabase nat :=
  scripted (fun _ _ => Failure timeout)
    (Failure timeout) (fun _ => Failure timeout)
    (Success (Some alice)) (Failure timeout) (Failure timeout)
    (fun _ => Failure timeout).

(** The store works, the hospital is not in it yet, nobody is signed in. *)
Definition signedOut : Supabase nat :=
  scripted (fun _ p => Success (Some (map (stored 1) p)))
    (Success (Some [])) (fun p => Success (Some [stored 9 p]))
    (Success None) (Success (Some [])) (Success (Some []))
    (fun a => Success (Some [a])).

(** The lookup of the hospital fails; everything else works. *)
Definition lookupFails : Supabase nat :=
  scripted (fun _ p => Success (Some (map (stored 1) p)))
    (Failure timeout) (fun p => Success (Some [stored 9 p]))
    (Success (Some alice)) (Success (Some [])) (Success (Some []))
    (fun a => Success (Some [a])).

(** The hospital is known; the profile lookup fails and there is no
    assessment. *)
Definition noProfile : Supabase nat :=
  scripted (fun _ p => Success (Some (map (stored 1) p)))
    (Success (Some [Some (IdNum 5)])) (fun p => Success (Some [stored 9 p]))
    (Success (Some alice)) (Failure timeout) (Success (Some []))
    (fun a => Success (Some [a])).

(** The hospital is known; the authentication call fails. *)
Definition authFails : Supabase nat :=
  scripted (fun _ p => Success (Some (map (stored 1) p)))
    (Success (Some [Some (IdNum 5)])) (fun p => Success (Some [stored 9 p]))
    (Failure timeout) (Success (Some [])) (Success (Some []))
    (fun a => Success (Some [a])).

(** The hospital is known; the insert of the appointment fails. *)
Definition bookingFails : Supabase nat :=
  scripted (fun _ p => Success (Some (map (stored 1) p)))
    (Success (Some [Some (IdNum 5)])) (fun p => Success (Some [stored 9 p]))
    (Success (Some alice)) (Success (Some [Some (IdStr "profile-1")]))
    (Success (Some [Some (IdNum 3)]))
    (fun _ => Failure timeout).

(** The rows the sample store returns for a chunk. *)
Definition returnedFor (chunk : list HospitalRow) : list DbRow :=
  map (stored 1) (map toPayload chunk).

(** The hospital the sample bookings are for. *)
Definition hospitalA : HospitalRow := hospitalAt "A" lat40 lon73.

(** An element without coordinates, and one at the sample position with a
    street and a city but no full address. *)
Definition elementNowhere : Element :=
  {| el_lat := None; el_lon := None; el_center := None;
     el_tags := Some (tagsNamed "Nowhere") |}.

Definition elementStreet : Element :=
  {| el_lat := Some lat40; el_lon := Some lon73; el_center := None;
     el_tags :=
       Some {| tag_name := Some "C"; tag_addr_full := None;
               tag_addr_street := Some "Main St"; tag_addr_housenumber := None;
               tag_addr_city := Some "Springfield"; tag_description := None;
               tag_phone := None; tag_contact_phone := None;
               tag_speciality := None; tag_healthcare := None;
               tag_emergency := Some "yes" |} |}.

(** The record [elementStreet] normalises to. *)
Definition hospitalStreet : HospitalRow :=
  {| row_id := None; name := "C"; address := Some "Main St, Springfield";
     latitude := lat40; longitude := lon73; phone := None;
     specialities := None; emergency_available := Some true |}.

End Sample.

(** * Vocabulary of the properties *)

(** [x] is the last element of [l] that [f] sends to [k]. *)
Definition lastWith {A : Type} (f : A -> string) (k : string) (l : list A) (x : A)
  : Prop :=
  exists l1 l2, l = l1 ++ x :: l2 /\ f x = k /\ Forall (fun y => f y <> k) l2.

(** The value of [x] cut after its sixth decimal: scaled by [10^6] and
    truncated toward zero. *)
Definition truncated6 (x : number) : option Z :=
  match value x with
  | Some q =>
      let n := Qfloor (Qabs q * inject_Z (10 ^ 6)) in
      Some (if Qle_bool 0 q then n else (- n)%Z)
  | None => None
  end.

(** Two numbers that differ only beyond the sixth decimal place. *)
Definition sameThrough6 (x y : number) : Prop :=
  exists n, truncated6 x = Some n /\ truncated6 y = Some n.

(** [x] has a value of magnitude below [10^21], negative exactly when [neg]
    is set, whose magnitude is nearest to [n / 10^6] among the multiples of
    [10^-6] (the larger one when two are as near). *)
Definition roundsTo6 (neg : bool) (n : Z) (x : number) : Prop :=
  exists q,
    value x = Some q
    /\ (Qabs q < tenTo21)%Q
    /\ (neg = true <-> (q < 0)%Q)
    /\ (inject_Z n - (1 # 2) <= Qabs q * inject_Z (10 ^ 6))%Q
    /\ (Qabs q * inject_Z (10 ^ 6) < inject_Z n + (1 # 2))%Q.

(** The map [mergeRows] builds before it takes the values. *)
Definition merged `{Runtime} (data : list DbRow) (prev : list HospitalRow) : JsMap.t HospitalRow :=
  fold_left (fun m r => JsMap.set (dbKey r) (fromDb r) m) data
    (fold_left (fun m p => JsMap.set (toKey p) p m) prev []).

(** The chunks the loop cuts, from index [i] on. *)
Fixpoint chunksFrom {A : Type} (fuel i : nat) (u : list A) : list (list A) :=
  match fuel with
  | O => []
  | S fuel' =>
      if (i <? length u)%nat
      then slice i (i + chunkSize) u :: chunksFrom fuel' (i + chunkSize) u
      else []
  end.

Definition chunksOf {A : Type} (u : list A) : list (list A) :=
  chunksFrom (length u) 0 u.

(** The record with another emergency flag. *)
Definition withEmergency (v : option bool) (h : HospitalRow) : HospitalRow :=
  {| row_id := row_id h; name := name h; address := address h;
     latitude := latitude h; longitude := longitude h; phone := phone h;
     specialities := specialities h; emergency_available := v |}.

(** An answer that brings no row. *)
Definition noRows {T : Type} (r : Response (list T)) : Prop :=
  match r with
  | Failure _ | Success None | Success (Some []) => True
  | Success (Some (_ :: _)) => False
  end.

(** The world after the upsert of a chunk was sent and answered. *)
Definition sent {B : Type} (chunk : list HospitalRow) (b : B) (w : World B)
  : World B :=
  {| backend := b;
     calls := calls w ++ [UpsertHospitals (map toPayload chunk)];
     console := console w |}.

(** One turn of the loop, on the pair of the state and the world. *)
Definition step `{Runtime} {B : Type} `{Supabase B}
  (acc : State * World B) (chunk : list HospitalRow) : State * World B :=
  upsertChunk chunk acc.1 acc.2.

(** The state [createAppointmentFor] leaves when the body threw [msg]. *)
Definition aborted (key msg : string) (st : State) : State :=
  setProcessingMap (insert key false)
    (setMessage (Some ("Error creating appointment: " +:+ shown msg))
       (setMessage None (setProcessingMap (insert key true) st))).

(** The state it leaves when the body returned. *)
Definition completed (key : string) (st : State) : State :=
  setProcessingMap (insert key false)
    (setNotesMap (delete key)
       (setOpenNoteIdx None
          (setMessage (Some "Appointment created (status: pending).")
             (setMessage None (setProcessingMap (insert key true) st))))).

(** [latVal] and [lonVal] of an element: the direct coordinate, or that of
    its [center] when the direct one is [null] or [undefined]. *)
Definition resolvedLat (el : Element) : option number :=
  nullish (el_lat el) (match el_center el with
                       | Some c => center_lat c
                       | None => None
                       end).

Definition resolvedLon (el : Element) : option number :=
  nullish (el_lon el) (match el_center el with
                       | Some c => center_lon c
                       | None => None
                       end).

(** A coordinate that passes [!latVal]: present, and neither zero nor NaN. *)
Definition usable (v : option number) : bool :=
  match v with
  | Some x => truthy x
  | None => false
  end.

(** Reading a key back: the characters a fixed-point rendering is made of,
    and the functions that take a key apart. *)
Definition plain (c : ascii) : bool :=
  existsb (Ascii.eqb c)
    ["0"; "1"; "2"; "3"; "4"; "5"; "6"; "7"; "8"; "9"; "."]%char.

Fixpoint allPlain (s : string) : bool :=
  match s with
  | EmptyString => true
  | String c s' => plain c && allPlain s'
  end.

(** The string without its points. *)
Fixpoint undot (s : string) : string :=
  match s with
  | EmptyString => EmptyString
  | String c s' => if Ascii.eqb c "." then undot s' else String c (undot s')
  end.

(** The part of a key before its bar, and the part after it. *)
Fixpoint beforeBar (s : string) : string :=
  match s with
  | EmptyString => EmptyString
  | String c s' => if Ascii.eqb c "|" then EmptyString else String c (beforeBar s')
  end.

Fixpoint afterBar (s : string) : string :=
  match s with
  | EmptyString => EmptyString
  | String c s' => if Ascii.eqb c "|" then s' else afterBar s'
  end.

(** The sign and the scaled magnitude a fixed-point rendering stands for. *)
Definition readFixed (s : string) : bool * option N :=
  match s with
  | String "-" s' => (true, option_map N.of_uint (NilEmpty.uint_of_string (undot s')))
  | _ => (false, option_map N.of_uint (NilEmpty.uint_of_string (undot s)))
  end.

(** Both coordinates of a key. *)
Definition readKey (key : string) : (bool * option N) * (bool * option N) :=
  (readFixed (beforeBar key), readFixed (afterBar key)).

(** * Properties *)

(** ** Facts on [JsMap] *)

Section JsMapFacts.

Context {V : Type}.
Implicit Types (k : string) (v : V) (m : JsMap.t V).

Lemma JsMap_get_set k k' v m :
  JsMap.get k' (JsMap.set k v m) = if String.eqb k k' then Some v else JsMap.get k' m.
Proof.
  induction m as [|[k0 v0] m IH]; simpl.
  - rewrite String.eqb_sym. reflexivity.
  - destruct (String.eqb_spec k0 k) as [->|Hne]; simpl.
    + destruct (String.eqb_spec k k'); reflexivity.
    + rewrite IH. destruct (String.eqb_spec k0 k') as [->|Hne'];
        [|reflexivity].
      destruct (String.eqb_spec k k'); congruence.
Qed.

Lemma JsMap_keys_set_old k v m :
  In k (JsMap.keys m) -> JsMap.keys (JsMap.set k v m) = JsMap.keys m.
Proof.
  induction m as [|[k0 v0] m IH]; simpl; [tauto|].
  intros Hin. destruct (String.eqb_spec k0 k) as [->|Hne]; simpl.
  - reflexivity.
  - f_equal. apply IH. destruct Hin; [contradiction | assumption].
Qed.

Lemma JsMap_keys_set_new k v m :
  ~ In k (JsMap.keys m) -> JsMap.keys (JsMap.set k v m) = JsMap.keys m ++ [k].
Proof.
  induction m as [|[k0 v0] m IH]; simpl; [reflexivity|].
  intros Hnin. destruct (String.eqb_spec k0 k) as [->|Hne]; simpl.
  - tauto.
  - f_equal. apply IH. tauto.
Qed.

Lemma JsMap_in_keys_set k k' v m :
  In k' (JsMap.keys (JsMap.set k v m)) <-> k' = k \/ In k' (JsMap.keys m).
Proof.
  destruct (in_dec string_dec k (JsMap.keys m)) as [Hin|Hnin].
  - rewrite JsMap_keys_set_old by assumption.
    split; [tauto | intros [->|]; assumption].
  - rewrite JsMap_keys_set_new by assumption.
    rewrite in_app_iff. simpl. intuition.
Qed.

Lemma JsMap_NoDup_set k v m :
  NoDup (JsMap.keys m) -> NoDup (JsMap.keys (JsMap.set k v m)).
Proof.
  intros Hnd. destruct (in_dec string_dec k (JsMap.keys m)) as [Hin|Hnin].
  - rewrite JsMap_keys_set_old; assumption.
  - rewrite JsMap_keys_set_new by assumption.
    apply NoDup_app. repeat split.
    + assumption.
    + intros x Hx Hx'. apply list_elem_of_In in Hx.
      apply list_elem_of_singleton in Hx'. subst. tauto.
    + apply NoDup_singleton.
Qed.

Lemma JsMap_get_In k v m : JsMap.get k m = Some v -> In (k, v) m.
Proof.
  induction m as [|[k0 v0] m IH]; simpl; [discriminate|].
  destruct (String.eqb_spec k0 k) as [->|Hne].
  - intros [= ->]. left. reflexivity.
  - intros Hg. right. apply IH, Hg.
Qed.

Lemma JsMap_get_None k m : JsMap.get k m = None <-> ~ In k (JsMap.keys m).
Proof.
  induction m as [|[k0 v0] m IH]; simpl; [tauto|].
  destruct (String.eqb_spec k0 k) as [->|Hne].
  - split; [discriminate | tauto].
  - rewrite IH. tauto.
Qed.

Lemma JsMap_In_get k v m :
  NoDup (JsMap.keys m) -> In (k, v) m -> JsMap.get k m = Some v.
Proof.
  induction m as [|[k0 v0] m IH]; simpl; [tauto|].
  intros Hnd [Heq|Hin].
  - injection Heq as -> ->. rewrite String.eqb_refl. reflexivity.
  - apply NoDup_cons in Hnd as [Hnotin Hnd'].
    destruct (String.eqb_spec k0 k) as [->|Hne].
    + exfalso. apply Hnotin, list_elem_of_In.
      apply (in_map fst) in Hin. exact Hin.
    + apply IH; assumption.
Qed.

(** A value of the map, with its key. *)
Lemma JsMap_values_get v m :
  NoDup (JsMap.keys m) ->
  In v (JsMap.values m) <-> exists k, JsMap.get k m = Some v.
Proof.
  intros Hnd. unfold JsMap.values. rewrite in_map_iff. split.
  - intros [[k v'] [Hv Hin]]. simpl in Hv. subst v'. exists k.
    apply JsMap_In_get; assumption.
  - intros [k Hg]. exists (k, v). split; [reflexivity|].
    apply JsMap_get_In, Hg.
Qed.

Lemma JsMap_length_values m : length (JsMap.values m) = length (JsMap.keys m).
Proof. unfold JsMap.values, JsMap.keys. rewrite !length_map. reflexivity. Qed.

End JsMapFacts.

(** ** Filling a map from a list, as the loops over [mapped], [prev] and
    [data] do *)

Section Fill.

Context {A V : Type} (f : A -> string) (g : A -> V).

Local Abbreviation fill := (fold_left (fun m x => JsMap.set (f x) (g x) m)).
Local Abbreviation hits k := (fun x : A => String.eqb (f x) k).

Lemma find_append (p : A -> bool) (l1 l2 : list A) :
  find p (l1 ++ l2) =
  match find p l1 with
  | Some x => Some x
  | None => find p l2
  end.
Proof.
  induction l1 as [|x l1 IH]; simpl; [reflexivity|].
  destruct (p x); [reflexivity | exact IH].
Qed.

Lemma fill_get (l : list A) (m0 : JsMap.t V) (k : string) :
  JsMap.get k (fill l m0) =
  match find (hits k) (rev l) with
  | Some x => Some (g x)
  | None => JsMap.get k m0
  end.
Proof.
  revert m0. induction l as [|x l IH]; intros m0; simpl; [reflexivity|].
  rewrite IH, find_append.
  destruct (find (hits k) (rev l)); [reflexivity|].
  simpl. rewrite JsMap_get_set. destruct (String.eqb (f x) k); reflexivity.
Qed.

Lemma fill_NoDup (l : list A) (m0 : JsMap.t V) :
  NoDup (JsMap.keys m0) -> NoDup (JsMap.keys (fill l m0)).
Proof.
  revert m0. induction l as [|x l IH]; intros m0 Hnd; simpl; [assumption|].
  apply IH, JsMap_NoDup_set, Hnd.
Qed.

Lemma fill_keys (l : list A) (m0 : JsMap.t V) (k : string) :
  In k (JsMap.keys (fill l m0)) <-> In k (map f l) \/ In k (JsMap.keys m0).
Proof.
  revert m0. induction l as [|x l IH]; intros m0; simpl; [tauto|].
  rewrite IH, JsMap_in_keys_set. intuition.
Qed.

Lemma find_rev_lastWith (l : list A) (k : string) (x : A) :
  find (hits k) (rev l) = Some x <-> lastWith f k l x.
Proof.
  induction l as [|y l IH] using rev_ind.
  - simpl. split; [discriminate|].
    intros (l1 & l2 & Heq & _). destruct l1; discriminate.
  - rewrite rev_app_distr. simpl.
    destruct (String.eqb_spec (f y) k) as [Hk|Hk].
    + split.
      * intros [= ->]. exists l, []. auto.
      * intros (l1 & l2 & Heq & Hfx & Hl2).
        destruct l2 as [|z l2] using rev_ind.
        -- apply app_inj_tail in Heq as [_ ->]. reflexivity.
        -- clear IHl2. rewrite app_comm_cons, app_assoc in Heq.
           apply app_inj_tail in Heq as [_ ->].
           apply Forall_app in Hl2 as [_ Hz].
           inversion Hz; subst. contradiction.
    + rewrite IH. split.
      * intros (l1 & l2 & -> & Hfx & Hl2). exists l1, (l2 ++ [y]).
        rewrite <- app_assoc. repeat split; [assumption|].
        apply Forall_app. auto.
      * intros (l1 & l2 & Heq & Hfx & Hl2).
        destruct l2 as [|z l2] using rev_ind.
        -- apply app_inj_tail in Heq as [_ ->]. contradiction.
        -- clear IHl2. rewrite app_comm_cons, app_assoc in Heq.
           apply app_inj_tail in Heq as [-> ->].
           apply Forall_app in Hl2 as [Hl2 _]. exists l1, l2. auto.
Qed.

Lemma find_rev_None (l : list A) (k : string) :
  find (hits k) (rev l) = None <-> Forall (fun y => f y <> k) l.
Proof.
  rewrite List.Forall_forall. split.
  - intros Hnone y Hy Hk. apply in_rev in Hy.
    pose proof (find_none _ _ Hnone y Hy) as Hf. simpl in Hf.
    apply String.eqb_neq in Hf. contradiction.
  - intros Hall. destruct (find (hits k) (rev l)) as [x|] eqn:Hf; [|reflexivity].
    apply find_some in Hf as [Hin Hk]. apply in_rev in Hin.
    apply String.eqb_eq in Hk. exfalso. exact (Hall x Hin Hk).
Qed.

(** Every element of the list has a last element with its key. *)
Lemma lastWith_exists (l : list A) (x : A) :
  In x l -> exists y, lastWith f (f x) l y.
Proof.
  intros Hin. destruct (find (hits (f x)) (rev l)) as [y|] eqn:Hf.
  - exists y. apply find_rev_lastWith, Hf.
  - apply find_rev_None in Hf. rewrite List.Forall_forall in Hf.
    exfalso. exact (Hf x Hin eq_refl).
Qed.

Lemma lastWith_unique (l : list A) (k : string) (x y : A) :
  lastWith f k l x -> lastWith f k l y -> x = y.
Proof.
  intros Hx Hy. apply find_rev_lastWith in Hx, Hy. congruence.
Qed.

End Fill.

(** ** Deduplication *)

Section Dedup.

Context `{Runtime}.

Lemma uniq_NoDup (mapped : list HospitalRow) : NoDup (JsMap.keys (uniq mapped)).
Proof. apply (fill_NoDup toKey (fun h => h)). constructor. Qed.

Lemma uniq_get (mapped : list HospitalRow) (k : string) (h : HospitalRow) :
  JsMap.get k (uniq mapped) = Some h <-> lastWith toKey k mapped h.
Proof.
  unfold uniq. rewrite (fill_get toKey (fun h => h)). simpl.
  rewrite <- find_rev_lastWith.
  destruct (find _ (rev mapped)); split; congruence.
Qed.

Lemma uniq_entry (mapped : list HospitalRow) (k : string) (h : HospitalRow) :
  In (k, h) (uniq mapped) -> k = toKey h.
Proof.
  intros Hin. apply (JsMap_In_get _ _ _ (uniq_NoDup mapped)) in Hin.
  apply (proj1 (uniq_get mapped k h)) in Hin.
  destruct Hin as (_ & _ & _ & Hk & _). congruence.
Qed.

Lemma dedupe_keys (mapped : list HospitalRow) :
  map toKey (dedupe mapped) = JsMap.keys (uniq mapped).
Proof.
  unfold dedupe, JsMap.values, JsMap.keys. rewrite map_map.
  apply map_ext_in. intros [k h] Hin. simpl.
  symmetry. exact (uniq_entry mapped k h Hin).
Qed.

Lemma dedupe_In (mapped : list HospitalRow) (h : HospitalRow) :
  In h (dedupe mapped) <-> lastWith toKey (toKey h) mapped h.
Proof.
  unfold dedupe. rewrite JsMap_values_get by apply uniq_NoDup. split.
  - intros [k Hg]. apply (proj1 (uniq_get mapped k h)) in Hg.
    destruct Hg as (l1 & l2 & Heq & Hk & Hl2). subst k.
    exists l1, l2. auto.
  - intros Hl. exists (toKey h). apply uniq_get, Hl.
Qed.

Lemma dedupe_key_set (mapped : list HospitalRow) (k : string) :
  In k (map toKey (dedupe mapped)) <-> In k (map toKey mapped).
Proof.
  rewrite dedupe_keys. unfold uniq.
  rewrite (fill_keys toKey (fun h => h)). simpl. tauto.
Qed.

(** The number of records kept is the number of distinct keys. *)
Lemma dedupe_length (mapped : list HospitalRow) :
  length (dedupe mapped) = size (list_to_set (toKey <$> mapped) : gset string).
Proof.
  rewrite <- (length_map toKey), dedupe_keys.
  rewrite <- (size_list_to_set (C := gset string)) by apply uniq_NoDup.
  f_equal. apply set_eq. intros k.
  rewrite !elem_of_list_to_set, !list_elem_of_In.
  rewrite <- dedupe_keys. apply dedupe_key_set.
Qed.

(** C6. Deduplication keeps one record for each distinct CoordinateKey of
    its input: the number of records kept is the number of distinct keys, no
    two of them share a key, every key of the input is kept, and the record
    kept for a key is the last record of the input with that key. *)
Theorem dedupe_last_occurrence_wins (mapped : list HospitalRow) :
  length (dedupe mapped) = size (list_to_set (toKey <$> mapped) : gset string)
  /\ NoDup (toKey <$> dedupe mapped)
  /\ (forall x, In x mapped -> exists h, In h (dedupe mapped) /\ toKey h = toKey x)
  /\ (forall h, In h (dedupe mapped) -> lastWith toKey (toKey h) mapped h).
Proof.
  split; [apply dedupe_length|]. split.
  { change (NoDup (map toKey (dedupe mapped))).
    rewrite dedupe_keys. apply uniq_NoDup. }
  split.
  - intros x Hx. destruct (lastWith_exists toKey mapped x Hx) as [h Hh].
    exists h. assert (Hk : toKey h = toKey x) by (destruct Hh as (? & ? & ? & ? & ?); assumption).
    split; [|exact Hk]. apply dedupe_In. rewrite Hk. exact Hh.
  - intros h Hh. apply dedupe_In, Hh.
Qed.

End Dedup.

(** ** The coordinate key *)

Lemma Qfloor_unique (x : Q) (n : Z) :
  (inject_Z n <= x)%Q -> (x < inject_Z n + 1)%Q -> Qfloor x = n.
Proof.
  intros Hle Hlt.
  pose proof (Qfloor_le x) as Hf1. pose proof (Qlt_floor x) as Hf2.
  assert (H1 : (inject_Z n < inject_Z (Qfloor x + 1))%Q)
    by (eapply Qle_lt_trans; eassumption).
  assert (H2 : (inject_Z (Qfloor x) < inject_Z (n + 1))%Q).
  { eapply Qle_lt_trans; [exact Hf1|].
    rewrite inject_Z_plus. exact Hlt. }
  rewrite <- Zlt_Qlt in H1, H2. lia.
Qed.

Lemma magnitude_pos (m : positive) (e : Z) : (0 < magnitude m e)%Q.
Proof.
  unfold magnitude. apply Qmult_lt_0_compat.
  - unfold Qlt. simpl. lia.
  - apply Qpower_0_lt. reflexivity.
Qed.

Lemma scaled_unique (q : Q) (n : Z) :
  (inject_Z n - (1 # 2) <= q * inject_Z (10 ^ 6))%Q ->
  (q * inject_Z (10 ^ 6) < inject_Z n + (1 # 2))%Q ->
  scaled 6 q = n.
Proof.
  intros Hlo Hhi. unfold scaled. apply Qfloor_unique.
  - change (Z.of_nat 6) with 6%Z.
    apply (Qplus_le_l _ _ (- (1 # 2))). ring_simplify.
    ring_simplify in Hlo. exact Hlo.
  - change (Z.of_nat 6) with 6%Z.
    apply (Qplus_lt_l _ _ (- (1 # 2))). ring_simplify.
    ring_simplify in Hhi. exact Hhi.
Qed.

Section CoordinateKey.

Context `{Runtime}.

(** What [toFixed(6)] prints is determined by the sign and the rounded
    magnitude. *)
Lemma toFixed_roundsTo6 (neg : bool) (n : Z) (x : number) :
  roundsTo6 neg n x ->
  toFixed 6 x = (if neg then "-" else "") +:+ pointed 6 n.
Proof.
  intros (q & Hv & Hbig & Hneg & Hlo & Hhi).
  destruct x as [s|s| |s m e]; simpl in Hv; try discriminate.
  - injection Hv as <-.
    assert (neg = false) as ->.
    { destruct neg; [|reflexivity]. destruct Hneg as [Hn _].
      specialize (Hn eq_refl). discriminate Hn. }
    change (Qabs 0) with 0%Q in Hlo, Hhi.
    assert (n = 0%Z) as ->.
    { rewrite Qmult_0_l in Hlo, Hhi.
      assert (H1 : (inject_Z n < inject_Z 1)%Q).
      { apply (Qplus_lt_l _ _ (- (1 # 2))). eapply Qle_lt_trans; [exact Hlo|].
        reflexivity. }
      assert (H2 : (inject_Z (-1) < inject_Z n)%Q).
      { apply (Qplus_lt_l _ _ (1 # 2)). eapply Qlt_trans; [|exact Hhi].
        reflexivity. }
      rewrite <- Zlt_Qlt in H1, H2. lia. }
    reflexivity.
  - pose proof (magnitude_pos m e) as Hpos.
    assert (Habs : (Qabs q == magnitude m e)%Q).
    { injection Hv as <-. destruct s.
      - rewrite Qabs_opp. apply Qabs_pos, Qlt_le_weak, Hpos.
      - apply Qabs_pos, Qlt_le_weak, Hpos. }
    assert (neg = s) as ->.
    { injection Hv as <-. destruct s, neg; try reflexivity.
      - destruct Hneg as [_ Hn]. exfalso.
        assert (Hlt : (- magnitude m e < 0)%Q).
        { apply (Qplus_lt_l _ _ (magnitude m e)). ring_simplify. exact Hpos. }
        specialize (Hn Hlt). discriminate Hn.
      - destruct Hneg as [Hn _]. specialize (Hn eq_refl).
        exfalso. exact (Qlt_irrefl _ (Qlt_trans _ _ _ Hpos Hn)). }
    rewrite Habs in Hbig, Hlo, Hhi.
    unfold toFixed.
    assert (Qle_bool tenTo21 (magnitude m e) = false) as ->.
    { destruct (Qle_bool tenTo21 (magnitude m e)) eqn:Hb; [|reflexivity].
      apply Qle_bool_iff in Hb. exfalso.
      exact (Qlt_irrefl _ (Qle_lt_trans _ _ _ Hb Hbig)). }
    rewrite (scaled_unique _ n Hlo Hhi). reflexivity.
Qed.

(** Numbers that round alike print alike. *)
Lemma toFixed_same_rounding (neg : bool) (n : Z) (x y : number) :
  roundsTo6 neg n x -> roundsTo6 neg n y -> toFixed 6 x = toFixed 6 y.
Proof.
  intros Hx Hy.
  rewrite (toFixed_roundsTo6 neg n x Hx), (toFixed_roundsTo6 neg n y Hy).
  reflexivity.
Qed.

(** C3, amended. Two coordinate pairs whose latitudes have the same sign
    and round to the same sixth decimal, and whose longitudes do, have equal
    CoordinateKeys. *)
Theorem coordKey_same_rounding (sLat sLon : bool) (nLat nLon : Z)
  (lat1 lon1 lat2 lon2 : number) :
  roundsTo6 sLat nLat lat1 -> roundsTo6 sLat nLat lat2 ->
  roundsTo6 sLon nLon lon1 -> roundsTo6 sLon nLon lon2 ->
  coordKey lat1 lon1 = coordKey lat2 lon2.
Proof.
  intros Hlat1 Hlat2 Hlon1 Hlon2. unfold coordKey.
  rewrite (toFixed_same_rounding sLat nLat lat1 lat2 Hlat1 Hlat2).
  rewrite (toFixed_same_rounding sLon nLon lon1 lon2 Hlon1 Hlon2).
  reflexivity.
Qed.

End CoordinateKey.

(** ** Merging the returned rows *)

Section Merge.

Context `{Runtime}.

Lemma toKey_fromDb (r : DbRow) : toKey (fromDb r) = dbKey r.
Proof. reflexivity. Qed.

Lemma mergeRows_values (data : list DbRow) (prev : list HospitalRow) :
  mergeRows data prev = JsMap.values (merged data prev).
Proof. reflexivity. Qed.

Lemma merged_NoDup (data : list DbRow) (prev : list HospitalRow) :
  NoDup (JsMap.keys (merged data prev)).
Proof. apply (fill_NoDup dbKey fromDb), uniq_NoDup. Qed.

Lemma merged_get (data : list DbRow) (prev : list HospitalRow) (k : string) :
  JsMap.get k (merged data prev) =
  match find (fun r => String.eqb (dbKey r) k) (rev data) with
  | Some r => Some (fromDb r)
  | None => find (fun p => String.eqb (toKey p) k) (rev prev)
  end.
Proof.
  unfold merged. rewrite (fill_get dbKey fromDb).
  destruct (find _ (rev data)); [reflexivity|].
  rewrite (fill_get toKey (fun p => p)). simpl.
  destruct (find _ (rev prev)); reflexivity.
Qed.

Lemma merged_entry (data : list DbRow) (prev : list HospitalRow)
  (k : string) (h : HospitalRow) :
  JsMap.get k (merged data prev) = Some h -> k = toKey h.
Proof.
  rewrite merged_get.
  destruct (find _ (rev data)) as [r|] eqn:Hd.
  - intros [= <-]. apply find_some in Hd as [_ Hk].
    apply String.eqb_eq in Hk. rewrite toKey_fromDb. congruence.
  - intros Hp. apply find_some in Hp as [_ Hk].
    apply String.eqb_eq in Hk. congruence.
Qed.

(** The records of a merge: for each key among the returned rows, the record
    built from the last returned row with that key; for every other key of
    the previous list, the last previous record with that key. *)
Lemma mergeRows_In (data : list DbRow) (prev : list HospitalRow) (h : HospitalRow) :
  In h (mergeRows data prev) <->
  (exists r, lastWith dbKey (toKey h) data r /\ h = fromDb r)
  \/ (Forall (fun r => dbKey r <> toKey h) data /\ lastWith toKey (toKey h) prev h).
Proof.
  rewrite mergeRows_values, (JsMap_values_get _ _ (merged_NoDup data prev)).
  split.
  - intros [k Hg]. pose proof (merged_entry _ _ _ _ Hg) as ->.
    rewrite merged_get in Hg.
    destruct (find _ (rev data)) as [r|] eqn:Hd.
    + left. exists r. split; [|congruence].
      apply (find_rev_lastWith dbKey), Hd.
    + right. split.
      * apply (find_rev_None dbKey), Hd.
      * apply (find_rev_lastWith toKey), Hg.
  - intros [(r & Hr & ->)|[Hnone Hp]]; exists (toKey h) || exists (toKey (fromDb r));
      rewrite merged_get.
    + apply (find_rev_lastWith dbKey) in Hr. rewrite Hr. reflexivity.
    + apply (find_rev_None dbKey) in Hnone. rewrite Hnone.
      apply (find_rev_lastWith toKey), Hp.
Qed.

(** A map whose entries sit under the key of their value is rebuilt as it
    is from its values. *)
Lemma refill (m1 m2 : JsMap.t HospitalRow) :
  NoDup (JsMap.keys (m1 ++ m2)) ->
  (forall k h, In (k, h) m2 -> k = toKey h) ->
  fold_left (fun m p => JsMap.set (toKey p) p m) (JsMap.values m2) m1 = m1 ++ m2.
Proof.
  revert m1. induction m2 as [|[k h] m2 IH]; intros m1 Hnd Hkey; simpl.
  - rewrite app_nil_r. reflexivity.
  - assert (Hk : k = toKey h) by (apply Hkey; left; reflexivity). subst k.
    assert (Hset : JsMap.set (toKey h) h m1 = m1 ++ [(toKey h, h)]).
    { assert (Hnin : ~ In (toKey h) (JsMap.keys m1)).
      { unfold JsMap.keys in Hnd. rewrite map_app in Hnd.
        apply NoDup_app in Hnd as (_ & Hdisj & _).
        intros Hin. apply (Hdisj (toKey h)).
        - apply list_elem_of_In, Hin.
        - simpl. left. }
      clear -Hnin. induction m1 as [|[k0 v0] m1 IHm]; simpl; [reflexivity|].
      simpl in Hnin. destruct (String.eqb_spec k0 (toKey h)); [tauto|].
      f_equal. apply IHm. tauto. }
    rewrite Hset, IH.
    + rewrite <- app_assoc. reflexivity.
    + rewrite <- app_assoc. exact Hnd.
    + intros k' h' Hin. apply Hkey. right. exact Hin.
Qed.

(** Merging in two steps is merging all the rows at once. *)
Lemma mergeRows_app (d1 d2 : list DbRow) (prev : list HospitalRow) :
  mergeRows d2 (mergeRows d1 prev) = mergeRows (d1 ++ d2) prev.
Proof.
  rewrite !mergeRows_values. f_equal. unfold merged at 1.
  rewrite (refill [] (merged d1 prev)).
  - unfold merged. rewrite fold_left_app. reflexivity.
  - apply merged_NoDup.
  - intros k h Hin. apply (merged_entry d1 prev).
    apply JsMap_In_get; [apply merged_NoDup | exact Hin].
Qed.

Lemma mergeRows_nil_nil : mergeRows [] [] = [].
Proof. reflexivity. Qed.

(** A merge that took in a row is not empty. *)
Lemma mergeRows_nonempty (data : list DbRow) (prev : list HospitalRow) :
  data <> [] -> mergeRows data prev <> [].
Proof.
  intros Hne Hnil. destruct data as [|r data]; [congruence|].
  destruct (lastWith_exists dbKey (r :: data) r) as [r' Hr']; [left; reflexivity|].
  assert (Hin : In (fromDb r') (mergeRows (r :: data) prev)).
  { apply mergeRows_In. left. exists r'. split; [|reflexivity].
    rewrite toKey_fromDb.
    assert (Hk : dbKey r' = dbKey r)
      by (destruct Hr' as (? & ? & ? & ? & ?); assumption).
    rewrite Hk. exact Hr'. }
  rewrite Hnil in Hin. destruct Hin.
Qed.

End Merge.

(** ** The chunked upsert *)

Lemma chunkSize_pos : 0 < chunkSize.
Proof. unfold chunkSize. lia. Qed.

Section Chunks.

Context {A : Type}.
Implicit Types u : list A.

Lemma chunksFrom_lt fuel i u :
  i < length u ->
  chunksFrom (S fuel) i u = slice i (i + chunkSize) u :: chunksFrom fuel (i + chunkSize) u.
Proof.
  intros Hlt. cbn [chunksFrom].
  destruct (Nat.ltb_spec i (length u)); [reflexivity | lia].
Qed.

Lemma chunksFrom_ge fuel i u : length u <= i -> chunksFrom fuel i u = [].
Proof.
  intros Hge. destruct fuel; cbn [chunksFrom]; [reflexivity|].
  destruct (Nat.ltb_spec i (length u)); [lia | reflexivity].
Qed.

(** With the fuel [syncHospitalsAround] gives it, the loop ends by its own
    test, and the chunks are the whole list, in order. *)
Lemma chunksFrom_concat fuel i u :
  length u - i <= fuel -> concat (chunksFrom fuel i u) = skipn i u.
Proof.
  pose proof chunkSize_pos as Hpos.
  revert i. induction fuel as [|fuel IH]; intros i Hfuel.
  - cbn [chunksFrom concat]. symmetry. apply skipn_all2. lia.
  - destruct (Nat.lt_ge_cases i (length u)) as [Hlt|Hge].
    + rewrite chunksFrom_lt by assumption. cbn [concat].
      rewrite IH by lia. unfold slice.
      replace (i + chunkSize - i) with chunkSize by lia.
      replace (i + chunkSize) with (chunkSize + i) by lia.
      rewrite <- skipn_skipn. apply firstn_skipn.
    + rewrite chunksFrom_ge by assumption. cbn [concat].
      symmetry. apply skipn_all2. assumption.
Qed.

Lemma chunksOf_concat u : concat (chunksOf u) = u.
Proof. unfold chunksOf. rewrite chunksFrom_concat by lia. reflexivity. Qed.

(** Every chunk holds a record and at most [chunkSize] of them. *)
Lemma chunksFrom_sizes fuel i u :
  Forall (fun c => 0 < length c <= chunkSize) (chunksFrom fuel i u).
Proof.
  pose proof chunkSize_pos as Hpos.
  revert i. induction fuel as [|fuel IH]; intros i; cbn [chunksFrom].
  - constructor.
  - destruct (Nat.ltb_spec i (length u)) as [Hlt|Hge]; constructor.
    + unfold slice. rewrite length_firstn, length_skipn. lia.
    + apply IH.
Qed.

Lemma chunksOf_one u :
  0 < length u <= chunkSize -> chunksOf u = [u].
Proof.
  intros [Hlo Hhi]. unfold chunksOf.
  destruct (length u) as [|fuel] eqn:Hlen; [lia|].
  rewrite chunksFrom_lt by lia. rewrite chunksFrom_ge by lia.
  unfold slice. change (skipn 0 u) with u.
  rewrite firstn_all2 by lia. reflexivity.
Qed.

Lemma chunksOf_three u :
  2 * chunkSize < length u <= 3 * chunkSize ->
  chunksOf u = [slice 0 chunkSize u;
                slice chunkSize (2 * chunkSize) u;
                slice (2 * chunkSize) (3 * chunkSize) u].
Proof.
  pose proof chunkSize_pos as Hpos. intros [Hlo Hhi]. unfold chunksOf.
  assert (Hfuel : exists fuel, length u = S (S (S fuel)))
    by (exists (length u - 3); lia).
  destruct Hfuel as [fuel Hfuel]. rewrite Hfuel at 1.
  rewrite chunksFrom_lt by lia.
  replace (0 + chunkSize) with chunkSize by lia.
  rewrite chunksFrom_lt by lia.
  replace (chunkSize + chunkSize) with (2 * chunkSize) by lia.
  rewrite chunksFrom_lt by lia.
  replace (2 * chunkSize + chunkSize) with (3 * chunkSize) by lia.
  rewrite chunksFrom_ge by lia. reflexivity.
Qed.

End Chunks.

Section Reconcile.

Context `{Runtime} {B : Type} `{Supabase B}.

Lemma upsertChunk_failure chunk st w b e :
  upsertHospitals (map toPayload chunk) (backend w) = (b, Failure e) ->
  upsertChunk chunk st w =
  (setError (Some ("Supabase upsert error: " +:+ Err.message e)) st,
   logTo "Supabase upsert chunk error" (sent chunk b w)).
Proof. intros Hans. unfold upsertChunk. rewrite Hans. reflexivity. Qed.

Lemma upsertChunk_rows chunk st w b data :
  upsertHospitals (map toPayload chunk) (backend w) = (b, Success (Some data)) ->
  upsertChunk chunk st w = (setHospitals (mergeRows data) st, sent chunk b w).
Proof. intros Hans. unfold upsertChunk. rewrite Hans. reflexivity. Qed.

Lemma upsertChunk_null chunk st w b :
  upsertHospitals (map toPayload chunk) (backend w) = (b, Success None) ->
  upsertChunk chunk st w = (st, sent chunk b w).
Proof. intros Hans. unfold upsertChunk. rewrite Hans. reflexivity. Qed.

Lemma upsertChunk_calls chunk st w :
  calls (upsertChunk chunk st w).2 =
  calls w ++ [UpsertHospitals (map toPayload chunk)].
Proof.
  unfold upsertChunk.
  destruct (upsertHospitals (map toPayload chunk) (backend w)) as [b [e|[data|]]];
    reflexivity.
Qed.

(** The loop runs [upsertChunk] over the chunks, in order. *)
Lemma upsertLoop_chunks fuel i u st w :
  upsertLoop fuel i u st w = fold_left step (chunksFrom fuel i u) (st, w).
Proof.
  revert i st w. induction fuel as [|fuel IH]; intros i st w;
    cbn [upsertLoop chunksFrom]; [reflexivity|].
  destruct (i <? length u)%nat; [|reflexivity].
  cbn [fold_left]. unfold step at 2. cbn [fst snd].
  destruct (upsertChunk (slice i (i + chunkSize) u) st w) as [st' w'].
  apply IH.
Qed.

Lemma reconcile_chunks u st w :
  reconcile u st w =
  (setHospitals (fallback u) (fold_left step (chunksOf u) (st, w)).1,
   (fold_left step (chunksOf u) (st, w)).2).
Proof.
  unfold reconcile. rewrite upsertLoop_chunks. fold (chunksOf u).
  destruct (fold_left step (chunksOf u) (st, w)). reflexivity.
Qed.

Lemma fold_step_calls (cs : list (list HospitalRow)) st w :
  calls (fold_left step cs (st, w)).2 =
  calls w ++ map (fun c => UpsertHospitals (map toPayload c)) cs.
Proof.
  revert st w. induction cs as [|c cs IH]; intros st w; cbn [fold_left map].
  - rewrite app_nil_r. reflexivity.
  - unfold step at 2. cbn [fst snd].
    destruct (upsertChunk c st w) as [st' w'] eqn:Hc.
    rewrite IH. pose proof (upsertChunk_calls c st w) as Hcalls.
    rewrite Hc in Hcalls. cbn [snd] in Hcalls. rewrite Hcalls.
    rewrite <- app_assoc. reflexivity.
Qed.

(** The calls of a reconciliation: one upsert for each chunk, in order. *)
Lemma reconcile_calls u st w :
  calls (reconcile u st w).2 =
  calls w ++ map (fun c => UpsertHospitals (map toPayload c)) (chunksOf u).
Proof. rewrite reconcile_chunks. cbn [snd]. apply fold_step_calls. Qed.

(** What a run of three chunks leaves when the second upsert fails and the
    others return rows. *)
Lemma reconcile_three u st w b1 b2 b3 d1 e d3 :
  2 * chunkSize < length u <= 3 * chunkSize ->
  upsertHospitals (map toPayload (slice 0 chunkSize u)) (backend w)
    = (b1, Success (Some d1)) ->
  upsertHospitals (map toPayload (slice chunkSize (2 * chunkSize) u)) b1
    = (b2, Failure e) ->
  upsertHospitals (map toPayload (slice (2 * chunkSize) (3 * chunkSize) u)) b2
    = (b3, Success (Some d3)) ->
  reconcile u st w =
  (setHospitals (fallback u)
     (setHospitals (mergeRows d3)
        (setError (Some ("Supabase upsert error: " +:+ Err.message e))
           (setHospitals (mergeRows d1) st))),
   sent (slice (2 * chunkSize) (3 * chunkSize) u) b3
     (logTo "Supabase upsert chunk error"
        (sent (slice chunkSize (2 * chunkSize) u) b2
           (sent (slice 0 chunkSize u) b1 w)))).
Proof.
  intros Hlen H1 H2 H3. rewrite reconcile_chunks, chunksOf_three by assumption.
  cbn [fold_left]. unfold step. cbn [fst snd].
  rewrite (upsertChunk_rows _ _ _ _ _ H1). cbn [fst snd].
  rewrite (upsertChunk_failure _ _ (sent _ b1 w) b2 e) by exact H2.
  cbn [fst snd].
  rewrite (upsertChunk_rows _ _ (logTo _ (sent _ b2 _)) b3 d3) by exact H3.
  reflexivity.
Qed.

(** C1, amended. In a run of three chunks where the upsert of chunk 2 fails
    and those of chunks 1 and 3 return rows: the three upserts are sent in
    order, the failure of chunk 2 is reported, and the list exposed is the
    merge by CoordinateKey of the rows returned for chunks 1 and 3 into the
    list exposed before the run (the whole deduplicated input, should that
    merge be empty).  Every returned row is there, through the last returned
    row with its key; when a row was returned, nothing else is there but
    records of the list before whose key no returned row has: the records of
    chunk 2 are not added. *)
Theorem reconcile_middle_chunk_fails u st w b1 b2 b3 d1 e d3 :
  2 * chunkSize < length u <= 3 * chunkSize ->
  upsertHospitals (map toPayload (slice 0 chunkSize u)) (backend w)
    = (b1, Success (Some d1)) ->
  upsertHospitals (map toPayload (slice chunkSize (2 * chunkSize) u)) b1
    = (b2, Failure e) ->
  upsertHospitals (map toPayload (slice (2 * chunkSize) (3 * chunkSize) u)) b2
    = (b3, Success (Some d3)) ->
  calls (reconcile u st w).2 =
    calls w ++ [UpsertHospitals (map toPayload (slice 0 chunkSize u));
                UpsertHospitals (map toPayload (slice chunkSize (2 * chunkSize) u));
                UpsertHospitals (map toPayload (slice (2 * chunkSize) (3 * chunkSize) u))]
  /\ error (reconcile u st w).1 = Some ("Supabase upsert error: " +:+ Err.message e)
  /\ hospitals (reconcile u st w).1
     = fallback u (mergeRows (d1 ++ d3) (hospitals st))
  /\ (forall r, In r (d1 ++ d3) ->
        exists r', lastWith dbKey (dbKey r) (d1 ++ d3) r'
                   /\ In (fromDb r') (hospitals (reconcile u st w).1))
  /\ (d1 ++ d3 <> [] ->
        forall h, In h (hospitals (reconcile u st w).1) ->
          (exists r, In r (d1 ++ d3) /\ h = fromDb r)
          \/ (In h (hospitals st)
              /\ Forall (fun r => dbKey r <> toKey h) (d1 ++ d3))).
Proof.
  intros Hlen H1 H2 H3.
  rewrite (reconcile_three u st w b1 b2 b3 d1 e d3 Hlen H1 H2 H3).
  cbn [fst snd]. unfold sent, logTo. cbn [calls]. split.
  { rewrite <- !app_assoc. reflexivity. }
  split; [reflexivity|].
  assert (Hhosp : hospitals (setHospitals (fallback u)
                    (setHospitals (mergeRows d3)
                       (setError (Some ("Supabase upsert error: " +:+ Err.message e))
                          (setHospitals (mergeRows d1) st))))
                  = fallback u (mergeRows (d1 ++ d3) (hospitals st))).
  { cbn [hospitals setHospitals setError]. rewrite mergeRows_app.
    reflexivity. }
  rewrite Hhosp. split; [reflexivity|]. split.
  - intros r Hr.
    assert (Hne : mergeRows (d1 ++ d3) (hospitals st) <> []).
    { apply mergeRows_nonempty. intros Hnil. rewrite Hnil in Hr. destruct Hr. }
    destruct (mergeRows (d1 ++ d3) (hospitals st)) as [|x l] eqn:Hm; [congruence|].
    cbn [fallback]. rewrite <- Hm.
    destruct (lastWith_exists dbKey (d1 ++ d3) r Hr) as [r' Hr'].
    exists r'. split; [exact Hr'|].
    apply mergeRows_In. left. exists r'. split; [|reflexivity].
    rewrite toKey_fromDb.
    assert (Hk : dbKey r' = dbKey r)
      by (destruct Hr' as (? & ? & ? & ? & ?); assumption).
    rewrite Hk. exact Hr'.
  - intros Hne h Hh.
    pose proof (mergeRows_nonempty (d1 ++ d3) (hospitals st) Hne) as Hne'.
    destruct (mergeRows (d1 ++ d3) (hospitals st)) as [|x l] eqn:Hm; [congruence|].
    cbn [fallback] in Hh. rewrite <- Hm in Hh.
    apply mergeRows_In in Hh as [(r & Hr & ->)|[Hnone Hp]].
    + left. exists r. split; [|reflexivity].
      destruct Hr as (l1 & l2 & -> & _). apply in_elt.
    + right. split; [|exact Hnone].
      destruct Hp as (l1 & l2 & -> & _). apply in_elt.
Qed.

End Reconcile.

Section Fallback.

Context `{Runtime} {B : Type} `{Supabase B}.

Lemma upsertChunk_noRows chunk st w :
  hospitals st = [] ->
  noRows (upsertHospitals (map toPayload chunk) (backend w)).2 ->
  hospitals (upsertChunk chunk st w).1 = [].
Proof.
  intros Hempty Hno. unfold upsertChunk.
  destruct (upsertHospitals (map toPayload chunk) (backend w))
    as [b [e|[[|r data]|]]]; cbn [fst snd] in *.
  - exact Hempty.
  - cbn [hospitals setHospitals]. rewrite Hempty. apply mergeRows_nil_nil.
  - destruct Hno.
  - exact Hempty.
Qed.

Lemma fold_step_noRows (cs : list (list HospitalRow)) st w :
  (forall p b, noRows (upsertHospitals p b).2) ->
  hospitals st = [] ->
  hospitals (fold_left step cs (st, w)).1 = [].
Proof.
  intros Hno. revert st w. induction cs as [|c cs IH]; intros st w Hempty;
    cbn [fold_left]; [exact Hempty|].
  unfold step at 2. cbn [fst snd].
  pose proof (upsertChunk_noRows c st w Hempty (Hno _ _)) as Hc.
  destruct (upsertChunk c st w) as [st' w']. apply IH, Hc.
Qed.

(** On a run that starts from an empty list, when no upsert brings a row
    (each fails, or returns nothing), the list exposed is the deduplicated
    input. *)
Lemma reconcile_fallback_from_empty u st w :
  hospitals st = [] ->
  (forall p b, noRows (upsertHospitals p b).2) ->
  hospitals (reconcile u st w).1 = u.
Proof.
  intros Hempty Hno. rewrite reconcile_chunks. cbn [fst hospitals setHospitals].
  rewrite (fold_step_noRows _ _ _ Hno Hempty). reflexivity.
Qed.

(** When every upsert fails, the list exposed is the one the run started
    from, unless that was empty. *)
Lemma reconcile_all_fail u st w :
  (forall p b, exists e, (upsertHospitals p b).2 = Failure e) ->
  hospitals (reconcile u st w).1 = fallback u (hospitals st).
Proof.
  intros Hfail. rewrite reconcile_chunks. cbn [fst hospitals setHospitals].
  f_equal. generalize (chunksOf u) as cs. intros cs. revert st w.
  induction cs as [|c cs IH]; intros st w; cbn [fold_left]; [reflexivity|].
  unfold step at 2. cbn [fst snd]. unfold upsertChunk.
  destruct (Hfail (map toPayload c) (backend w)) as [e He].
  destruct (upsertHospitals (map toPayload c) (backend w)) as [b r].
  cbn [snd] in He. subst r. rewrite IH. reflexivity.
Qed.

(** C9. The object sent for a record holds the record's own name, address,
    latitude, longitude, phone and specialities, field by field, and so is
    the same whatever its emergency flag; a reconciliation sends one upsert
    of such objects, one for each record of the chunk in order, for each
    chunk, and the chunks are the input in order.  When the upsert of a chunk returns rows,
    the list becomes the merge of these rows into the list before; each
    returned row is there through the last returned row [r'] with its key,
    whose emergency flag is the returned one, or false when the row has
    none, and no other record of the list has that key. *)
Theorem upsert_payload_and_merged_flag (u chunk : list HospitalRow)
  (st : State) (w : World B) :
  (forall h,
      p_name (toPayload h) = name h
      /\ p_address (toPayload h) = address h
      /\ p_latitude (toPayload h) = latitude h
      /\ p_longitude (toPayload h) = longitude h
      /\ p_phone (toPayload h) = phone h
      /\ p_specialities (toPayload h) = specialities h)
  /\ (forall v h, toPayload (withEmergency v h) = toPayload h)
  /\ (forall rows,
        In (UpsertHospitals rows)
          (map (fun c => UpsertHospitals (map toPayload c)) (chunksOf u)) ->
        exists c, In c (chunksOf u)
                  /\ length rows = length c
                  /\ forall i h, c !! i = Some h ->
                       rows !! i = Some (toPayload h))
  /\ calls (upsertChunk chunk st w).2 =
       calls w ++ [UpsertHospitals (map toPayload chunk)]
  /\ calls (reconcile u st w).2 =
       calls w ++ map (fun c => UpsertHospitals (map toPayload c)) (chunksOf u)
  /\ concat (chunksOf u) = u
  /\ (forall data,
        (upsertHospitals (map toPayload chunk) (backend w)).2 = Success (Some data) ->
        hospitals (upsertChunk chunk st w).1 = mergeRows data (hospitals st)
        /\ forall r, In r data ->
             exists r',
               lastWith dbKey (dbKey r) data r'
               /\ In (fromDb r') (hospitals (upsertChunk chunk st w).1)
               /\ emergency_available (fromDb r') =
                    Some (default false (db_emergency_available r'))
               /\ forall h, In h (hospitals (upsertChunk chunk st w).1) ->
                    toKey h = dbKey r -> h = fromDb r').
Proof.
  split; [intros h; repeat split; reflexivity|].
  split; [reflexivity|].
  split.
  { intros rows Hin. apply in_map_iff in Hin as (c & [= <-] & Hc).
    exists c. split; [exact Hc|]. split; [apply length_map|].
    intros i h Hi. rewrite list_lookup_fmap, Hi. reflexivity. }
  split; [apply upsertChunk_calls|].
  split; [apply reconcile_calls|].
  split; [apply chunksOf_concat|].
  intros data Hans.
  assert (Hst : hospitals (upsertChunk chunk st w).1 = mergeRows data (hospitals st)).
  { destruct (upsertHospitals (map toPayload chunk) (backend w)) as [b r] eqn:Hup.
    cbn [snd] in Hans. subst r. rewrite (upsertChunk_rows _ _ _ _ _ Hup).
    reflexivity. }
  rewrite Hst. split; [reflexivity|].
  intros r Hr. destruct (lastWith_exists dbKey data r Hr) as [r' Hr'].
  assert (Hk : dbKey r' = dbKey r)
    by (destruct Hr' as (? & ? & ? & ? & ?); assumption).
  exists r'. split; [exact Hr'|]. split.
  { apply mergeRows_In. left. exists r'. split; [|reflexivity].
    rewrite toKey_fromDb, Hk. exact Hr'. }
  split; [reflexivity|].
  intros h Hh Hkey. apply mergeRows_In in Hh as [(r0 & Hr0 & ->)|[Hnone _]].
  - rewrite Hkey in Hr0. f_equal.
    exact (lastWith_unique dbKey data (dbKey r) r0 r' Hr0 Hr').
  - exfalso. rewrite List.Forall_forall in Hnone.
    apply (Hnone r Hr). congruence.
Qed.

(** C4, amended. The two sample elements normalise to two records, named A
    and B; their keys differ in the sixth decimal, so deduplication keeps
    both, in order; the reconciliation sends a single upsert, of two rows. *)
Theorem sample_elements_end_to_end (st : State) (w : World B) :
  map name (normalize [Sample.elementA; Sample.elementB]) = ["A"; "B"]
  /\ map toKey (normalize [Sample.elementA; Sample.elementB])
       = ["40.000000|-73.000000"; "40.000001|-73.000001"]
  /\ dedupe (normalize [Sample.elementA; Sample.elementB])
       = normalize [Sample.elementA; Sample.elementB]
  /\ calls (syncHospitalsAround
              (Json (Some [Sample.elementA; Sample.elementB])) st w).1.2
       = calls w ++
         [UpsertHospitals
            (map toPayload (normalize [Sample.elementA; Sample.elementB]))]
  /\ length (normalize [Sample.elementA; Sample.elementB]) = 2.
Proof.
  assert (Hd : dedupe (normalize [Sample.elementA; Sample.elementB])
               = normalize [Sample.elementA; Sample.elementB])
    by (vm_compute; reflexivity).
  split; [vm_compute; reflexivity|].
  split; [vm_compute; reflexivity|].
  split; [exact Hd|].
  split; [|reflexivity].
  unfold syncHospitalsAround. rewrite Hd.
  pose proof (reconcile_calls (normalize [Sample.elementA; Sample.elementB])
                (setError None (setSyncing true st)) w) as Hcalls.
  rewrite chunksOf_one in Hcalls by (vm_compute; lia).
  destruct (reconcile _ _ w) as [st' w']. exact Hcalls.
Qed.

End Fallback.

(** ** The appointment workflow *)

Section Booking.

Context `{Runtime} {B : Type} `{Supabase B}.

Implicit Types (h : HospitalRow) (st : State) (w : World B).

Lemma createAppointmentFor_result h st w :
  createAppointmentFor h st w =
  match createBody h (toKey h) st w with
  | (w1, inr _) => (completed (toKey h) st, w1)
  | (w1, inl msg) =>
      (aborted (toKey h) msg st, logTo "createAppointmentFor error" w1)
  end.
Proof.
  unfold createAppointmentFor.
  destruct (createBody h (toKey h) st w) as [w1 [msg|[]]]; reflexivity.
Qed.

Lemma createBody_step1_throws h key st w w1 msg :
  resolveHospitalId h w = (w1, inl msg) ->
  createBody h key st w = (w1, inl msg).
Proof. intros H1. unfold createBody, bind. rewrite H1. reflexivity. Qed.

Lemma createBody_step2_throws h key st w w1 hid w2 msg :
  resolveHospitalId h w = (w1, inr hid) ->
  currentUser w1 = (w2, inl msg) ->
  createBody h key st w = (w2, inl msg).
Proof.
  intros H1 H2. unfold createBody, bind. rewrite H1, H2. reflexivity.
Qed.

Lemma createBody_steps h key st w w1 hid w2 u :
  resolveHospitalId h w = (w1, inr hid) ->
  currentUser w1 = (w2, inr u) ->
  createBody h key st w = bookFor key st hid u w2.
Proof.
  intros H1 H2. unfold createBody, bind. rewrite H1, H2. reflexivity.
Qed.

(** Step 1, when the lookup gives a truthy id: nothing is written. *)
Lemma resolveHospitalId_found h w :
  identTruthy (firstId (selectHospital (latitude h) (longitude h) (backend w)).2) = true ->
  exists w1,
    resolveHospitalId h w =
      (w1, inr (firstId (selectHospital (latitude h) (longitude h) (backend w)).2))
    /\ calls w1 = calls w ++ [SelectHospital (latitude h) (longitude h)].
Proof.
  intros Hid. unfold resolveHospitalId, bind, call, warnOnError, log, ret.
  destruct (selectHospital (latitude h) (longitude h) (backend w)) as [b1 found].
  cbn [fst snd] in *. destruct found as [e|data].
  - discriminate.
  - cbn [backend calls console]. rewrite Hid.
    eexists. split; reflexivity.
Qed.

(** Step 1, when the lookup gives no truthy id (it failed, found nothing,
    or found a falsy id): the hospital is inserted; a failure of the lookup
    is only logged. *)
Lemma resolveHospitalId_insert h w :
  identTruthy (firstId (selectHospital (latitude h) (longitude h) (backend w)).2) = false ->
  exists w1,
    resolveHospitalId h w =
      (w1,
       match (insertHospital (toPayload h)
                (selectHospital (latitude h) (longitude h) (backend w)).1).2 with
       | Failure e => inl ("Failed to create hospital record: " +:+ Err.message e)
       | Success (Some (r :: _)) => inr (db_id r)
       | Success _ => inr None
       end)
    /\ calls w1 = calls w ++ [SelectHospital (latitude h) (longitude h);
                              InsertHospital (toPayload h)]
    /\ console w1 =
         console w ++
         match (selectHospital (latitude h) (longitude h) (backend w)).2 with
         | Failure _ => ["find hospital err"]
         | Success _ => []
         end.
Proof.
  intros Hid. unfold resolveHospitalId, bind, call, warnOnError, log, ret, throw.
  destruct (selectHospital (latitude h) (longitude h) (backend w)) as [b1 found].
  cbn [fst snd] in *.
  destruct found as [e|data]; cbn [logTo backend calls console];
    rewrite Hid; cbn [logTo backend calls console];
    destruct (insertHospital (toPayload h) b1) as [b2 [e'|[[|r rows]|]]];
    cbn [fst snd backend calls console];
    eexists; (split; [reflexivity|]);
    cbn [calls console];
    rewrite <- ?app_assoc, ?app_nil_r; split; reflexivity.
Qed.

(** Step 2. *)
Lemma currentUser_result w :
  exists w1,
    currentUser w =
      (w1,
       match (getUser (backend w)).2 with
       | Failure e => inl ("Auth fetch error: " +:+ Err.message e)
       | Success None => inl "User not authenticated"
       | Success (Some u) => inr u
       end)
    /\ calls w1 = calls w ++ [GetUser]
    /\ backend w1 = (getUser (backend w)).1.
Proof.
  unfold currentUser, bind, call, ret, throw.
  destruct (getUser (backend w)) as [b1 [e|[u|]]]; cbn [fst snd];
    eexists; (split; [reflexivity|]); split; reflexivity.
Qed.

(** Steps 3 to 5: neither lookup can throw; the insert of the appointment
    is always reached, and its answer alone decides the outcome. *)
Lemma bookFor_result key st hid u w :
  exists w1,
    bookFor key st hid u w =
      (w1,
       match (insertAppointment
                (appointmentOf key st hid u
                   (selectProfile (uid u) (backend w)).2
                   (selectAssessment (uid u) (selectProfile (uid u) (backend w)).1).2)
                (selectAssessment (uid u) (selectProfile (uid u) (backend w)).1).1).2
       with
       | Failure e => inl ("Appointment insert error: " +:+ Err.message e)
       | Success _ => inr tt
       end)
    /\ calls w1 =
         calls w ++
         [SelectProfile (uid u); SelectAssessment (uid u);
          InsertAppointment
            (appointmentOf key st hid u
               (selectProfile (uid u) (backend w)).2
               (selectAssessment (uid u) (selectProfile (uid u) (backend w)).1).2)].
Proof.
  unfold bookFor, bind, call, warnOnError, log, ret, throw.
  destruct (selectProfile (uid u) (backend w)) as [b1 prof].
  cbn [fst snd].
  destruct prof as [e1|d1]; cbn [logTo backend calls console];
    destruct (selectAssessment (uid u) b1) as [b2 assess]; cbn [fst snd];
    destruct assess as [e2|d2]; cbn [logTo backend calls console];
    match goal with
    | |- context [insertAppointment ?a b2] =>
        destruct (insertAppointment a b2) as [b3 [e3|d3]]
    end;
    cbn [fst snd]; eexists; (split; [reflexivity|]);
    cbn [calls]; rewrite <- !app_assoc; reflexivity.
Qed.

(** C10. After [createAppointmentFor], however it ended, the processing
    flag under the key of the hospital is false. *)
Theorem processing_flag_cleared h st w :
  processingMap (createAppointmentFor h st w).1 !! toKey h = Some false.
Proof.
  rewrite createAppointmentFor_result.
  destruct (createBody h (toKey h) st w) as [w1 [msg|[]]];
    cbn [fst aborted completed processingMap setProcessingMap];
    apply lookup_insert_eq.
Qed.

End Booking.

Section Workflow.

Context `{Runtime} {B : Type} `{Supabase B}.

Implicit Types (h : HospitalRow) (st : State) (w : World B).

(** The outcome once steps 1 and 2 have given a hospital id and a user. *)
Lemma createAppointmentFor_booked h st w w1 hid w2 u :
  resolveHospitalId h w = (w1, inr hid) ->
  currentUser w1 = (w2, inr u) ->
  let prof := selectProfile (uid u) (backend w2) in
  let assess := selectAssessment (uid u) prof.1 in
  let appt := appointmentOf (toKey h) st hid u prof.2 assess.2 in
  calls (createAppointmentFor h st w).2 =
    calls w2 ++ [SelectProfile (uid u); SelectAssessment (uid u);
                 InsertAppointment appt]
  /\ (createAppointmentFor h st w).1 =
       match (insertAppointment appt assess.1).2 with
       | Failure e =>
           aborted (toKey h) ("Appointment insert error: " +:+ Err.message e) st
       | Success _ => completed (toKey h) st
       end.
Proof.
  intros H1 H2 prof assess appt. subst prof assess appt.
  rewrite createAppointmentFor_result, (createBody_steps _ _ _ _ _ _ _ _ H1 H2).
  destruct (bookFor_result (toKey h) st hid u w2) as (w3 & Hb & Hc).
  rewrite Hb.
  destruct (insertAppointment _ _).2 as [e|d]; cbn [fst snd logTo calls];
    split; (exact Hc || reflexivity).
Qed.

(** C8. Once steps 1 and 2 have given a hospital id and a user: a profile
    lookup that fails or brings no row leaves the user's own id as the user
    reference of the appointment, an assessment lookup that fails or brings
    no row leaves its assessment reference null, and in every case the
    insert of the appointment is the next and last call, whose answer alone
    decides the message shown. *)
Theorem lookups_degrade_to_fallbacks h st w w1 hid w2 u :
  resolveHospitalId h w = (w1, inr hid) ->
  currentUser w1 = (w2, inr u) ->
  let prof := selectProfile (uid u) (backend w2) in
  let assess := selectAssessment (uid u) prof.1 in
  let appt := appointmentOf (toKey h) st hid u prof.2 assess.2 in
  (noRows prof.2 -> user_id appt = Some (IdStr (uid u)))
  /\ (noRows assess.2 -> assessment_id appt = None)
  /\ calls (createAppointmentFor h st w).2 =
       calls w2 ++ [SelectProfile (uid u); SelectAssessment (uid u);
                    InsertAppointment appt]
  /\ message (createAppointmentFor h st w).1 =
       Some match (insertAppointment appt assess.1).2 with
            | Failure e =>
                "Error creating appointment: Appointment insert error: "
                +:+ Err.message e
            | Success _ => "Appointment created (status: pending)."
            end.
Proof.
  intros H1 H2 prof assess appt.
  destruct (createAppointmentFor_booked h st w w1 hid w2 u H1 H2) as [Hc Hs].
  fold prof assess appt in Hc, Hs.
  split.
  { intros Hno. subst appt. cbn [appointmentOf user_id].
    destruct prof.2 as [e|[[|i rows]|]]; cbn [noRows] in Hno;
      try reflexivity; contradiction. }
  split.
  { intros Hno. subst appt. cbn [appointmentOf assessment_id].
    destruct assess.2 as [e|[[|i rows]|]]; cbn [noRows] in Hno;
      try reflexivity; contradiction. }
  split; [exact Hc|].
  rewrite Hs. destruct (insertAppointment appt assess.1).2; reflexivity.
Qed.

(** C2, amended. When the authentication context yields no user, the
    workflow reports that the user is not authenticated without looking up
    a profile or an assessment and without inserting an appointment.  When
    the lookup of step 1 gave an id, nothing was written; otherwise the
    hospital was inserted before the user was asked for, and a failure of
    that insert is what is reported. *)
Theorem booking_without_user h st w :
  (forall b, (getUser b).2 = Success None) ->
  let sel := selectHospital (latitude h) (longitude h) (backend w) in
  let r := createAppointmentFor h st w in
  if identTruthy (firstId sel.2) then
    calls r.2 = calls w ++ [SelectHospital (latitude h) (longitude h); GetUser]
    /\ message r.1 = Some "Error creating appointment: User not authenticated"
  else
    match (insertHospital (toPayload h) sel.1).2 with
    | Failure e =>
        calls r.2 = calls w ++ [SelectHospital (latitude h) (longitude h);
                                InsertHospital (toPayload h)]
        /\ message r.1 =
             Some ("Error creating appointment: Failed to create hospital record: "
                   +:+ Err.message e)
    | Success _ =>
        calls r.2 = calls w ++ [SelectHospital (latitude h) (longitude h);
                                InsertHospital (toPayload h); GetUser]
        /\ message r.1 = Some "Error creating appointment: User not authenticated"
    end.
Proof.
  intros Hnouser sel r. subst sel r.
  rewrite createAppointmentFor_result.
  destruct (identTruthy
              (firstId (selectHospital (latitude h) (longitude h) (backend w)).2))
    eqn:Hid.
  - destruct (resolveHospitalId_found h w Hid) as (w1 & H1 & Hc1).
    destruct (currentUser_result w1) as (w2 & H2 & Hc2 & _).
    rewrite Hnouser in H2.
    rewrite (createBody_step2_throws _ _ _ _ _ _ _ _ H1 H2).
    cbn [fst snd logTo calls]. rewrite Hc2, Hc1, <- app_assoc.
    split; reflexivity.
  - destruct (resolveHospitalId_insert h w Hid) as (w1 & H1 & Hc1 & _).
    destruct (insertHospital (toPayload h) _).2 as [e|rows] eqn:Hins.
    + rewrite (createBody_step1_throws _ _ _ _ _ _ H1).
      cbn [fst snd logTo calls]. rewrite Hc1. split; reflexivity.
    + destruct (currentUser_result w1) as (w2 & H2 & Hc2 & _).
      rewrite Hnouser in H2.
      assert (Hr : exists hid, resolveHospitalId h w = (w1, inr hid)).
      { destruct rows as [[|r rows]|]; eexists; exact H1. }
      destruct Hr as [hid H1'].
      rewrite (createBody_step2_throws _ _ _ _ _ _ _ _ H1' H2).
      cbn [fst snd logTo calls]. rewrite Hc2, Hc1, <- app_assoc.
      split; reflexivity.
Qed.

(** C7, amended. A failure of the hospital insert of step 1, of step 2 (the
    authentication call fails or gives no user) or of the appointment insert
    of step 5 ends the workflow there: no later call is made and the message
    shown carries that of the failure.  A failure of the coordinate lookup
    of step 1 does not: the workflow goes on to insert the hospital and,
    if that returns, to ask for the user. *)
Theorem load_bearing_failures_abort h st w :
  let sel := selectHospital (latitude h) (longitude h) (backend w) in
  let r := createAppointmentFor h st w in
  (forall e,
      identTruthy (firstId sel.2) = false ->
      (insertHospital (toPayload h) sel.1).2 = Failure e ->
      calls r.2 = calls w ++ [SelectHospital (latitude h) (longitude h);
                              InsertHospital (toPayload h)]
      /\ message r.1 =
           Some ("Error creating appointment: Failed to create hospital record: "
                 +:+ Err.message e))
  /\ (forall w1 hid,
        resolveHospitalId h w = (w1, inr hid) ->
        match (getUser (backend w1)).2 with
        | Failure e =>
            calls r.2 = calls w1 ++ [GetUser]
            /\ message r.1 =
                 Some ("Error creating appointment: Auth fetch error: "
                       +:+ Err.message e)
        | Success None =>
            calls r.2 = calls w1 ++ [GetUser]
            /\ message r.1 =
                 Some "Error creating appointment: User not authenticated"
        | Success (Some _) => True
        end)
  /\ (forall w1 hid w2 u e,
        resolveHospitalId h w = (w1, inr hid) ->
        currentUser w1 = (w2, inr u) ->
        let prof := selectProfile (uid u) (backend w2) in
        let assess := selectAssessment (uid u) prof.1 in
        let appt := appointmentOf (toKey h) st hid u prof.2 assess.2 in
        (insertAppointment appt assess.1).2 = Failure e ->
        calls r.2 = calls w2 ++ [SelectProfile (uid u); SelectAssessment (uid u);
                                 InsertAppointment appt]
        /\ message r.1 =
             Some ("Error creating appointment: Appointment insert error: "
                   +:+ Err.message e)
        /\ notesMap r.1 = notesMap st
        /\ openNoteIdx r.1 = openNoteIdx st)
  /\ (forall e,
        sel.2 = Failure e ->
        exists rest,
          calls r.2 = calls w ++ SelectHospital (latitude h) (longitude h)
                              :: InsertHospital (toPayload h) :: rest
          /\ (forall rows,
                (insertHospital (toPayload h) sel.1).2 = Success rows ->
                exists rest', rest = GetUser :: rest')).
Proof.
  intros sel r. subst sel r. split; [|split; [|split]].
  - intros e Hid Hins.
    destruct (resolveHospitalId_insert h w Hid) as (w1 & H1 & Hc1 & _).
    rewrite Hins in H1.
    rewrite createAppointmentFor_result, (createBody_step1_throws _ _ _ _ _ _ H1).
    cbn [fst snd logTo calls]. rewrite Hc1. split; reflexivity.
  - intros w1 hid H1.
    destruct (currentUser_result w1) as (w2 & H2 & Hc2 & _).
    destruct (getUser (backend w1)).2 as [e|[u|]]; [|exact I|];
      rewrite createAppointmentFor_result,
        (createBody_step2_throws _ _ _ _ _ _ _ _ H1 H2);
      cbn [fst snd logTo calls]; rewrite Hc2; split; reflexivity.
  - intros w1 hid w2 u e H1 H2 prof assess appt Hfail.
    destruct (createAppointmentFor_booked h st w w1 hid w2 u H1 H2) as [Hc Hs].
    fold prof assess appt in Hc, Hs. rewrite Hfail in Hs.
    split; [exact Hc|]. rewrite Hs. repeat split; reflexivity.
  - intros e Hsel.
    assert (Hid : identTruthy
                    (firstId (selectHospital (latitude h) (longitude h) (backend w)).2)
                  = false) by (rewrite Hsel; reflexivity).
    destruct (resolveHospitalId_insert h w Hid) as (w1 & H1 & Hc1 & _).
    rewrite createAppointmentFor_result.
    destruct (insertHospital (toPayload h) _).2 as [e'|rows] eqn:Hins.
    + rewrite (createBody_step1_throws _ _ _ _ _ _ H1).
      cbn [fst snd logTo calls]. exists []. split; [exact Hc1|].
      intros rows Hrows. discriminate Hrows.
    + assert (Hr : exists hid, resolveHospitalId h w = (w1, inr hid)).
      { destruct rows as [[|r rows]|]; eexists; exact H1. }
      destruct Hr as [hid H1'].
      destruct (currentUser_result w1) as (w2 & H2 & Hc2 & _).
      destruct (getUser (backend w1)).2 as [e'|[u|]].
      * rewrite (createBody_step2_throws _ _ _ _ _ _ _ _ H1' H2).
        cbn [fst snd logTo calls]. rewrite Hc2, Hc1, <- app_assoc.
        exists [GetUser]. split; [reflexivity|]. intros _ _. exists []. reflexivity.
      * rewrite (createBody_steps _ _ _ _ _ _ _ _ H1' H2).
        destruct (bookFor_result (toKey h) st hid u w2) as (w3 & Hb & Hc3).
        rewrite Hb.
        match goal with
        | |- context [match ?x with Failure _ => _ | Success _ => _ end] =>
            destruct x
        end;
          cbn [fst snd logTo calls]; rewrite Hc3, Hc2, Hc1, <- !app_assoc;
          eexists; (split; [reflexivity|]); intros _ _; eexists; reflexivity.
      * rewrite (createBody_step2_throws _ _ _ _ _ _ _ _ H1' H2).
        cbn [fst snd logTo calls]. rewrite Hc2, Hc1, <- app_assoc.
        exists [GetUser]. split; [reflexivity|]. intros _ _. exists []. reflexivity.
Qed.

End Workflow.

(** * The properties at the sample inputs *)

(** Closes an order between two rationals given in full. *)
Ltac q_order :=
  first [ unfold Qlt; vm_compute; reflexivity
        | unfold Qle; vm_compute; discriminate ].

(** Closes [roundsTo6 neg n x] for a number given in full. *)
Ltac rounds_to :=
  eexists; split; [reflexivity|];
  split; [q_order|];
  split; [split; [first [discriminate | intros _; q_order]
                 | first [reflexivity | intros Hq; vm_compute in Hq; discriminate]]|];
  split; q_order.

(** The sample literals are the binary64 values nearest to their decimals:
    [40.000001] is within half a unit in the last place, [2^-48]. *)
Example lat40_000001_nearest :
  exists q, value Sample.lat40_000001 = Some q
            /\ (Qabs (q - (40000001 # 1000000)) <= Qpower 2 (-48))%Q.
Proof. eexists. split; [reflexivity|]. q_order. Qed.

(** [40.0] and [40.0000004] round to the same sixth decimal, as do [-73.0]
    and [-73.0000003]. *)
Lemma coordKey_same_rounding_witness :
  @coordKey Sample.runtime Sample.lat40 Sample.lon73 =
  @coordKey Sample.runtime Sample.lat40_0000004 Sample.lon73_0000003.
Proof.
  apply (@coordKey_same_rounding Sample.runtime false true 40000000 73000000);
    rounds_to.
Defined.

(** C3 as stated fails: [40.0000004] and [40.0000006] differ only in the
    seventh decimal, and their keys differ in the sixth. *)
Lemma coordKey_seventh_decimal_counterexample :
  ~ (forall (R : Runtime) (lat1 lon1 lat2 lon2 : number),
        sameThrough6 lat1 lat2 -> sameThrough6 lon1 lon2 ->
        @coordKey R lat1 lon1 = @coordKey R lat2 lon2).
Proof.
  intros Hclaim.
  assert (Hlat : sameThrough6 Sample.lat40_0000004 Sample.lat40_0000006)
    by (exists 40000000%Z; split; vm_compute; reflexivity).
  assert (Hlon : sameThrough6 Sample.lon73 Sample.lon73)
    by (exists (-73000000)%Z; split; vm_compute; reflexivity).
  specialize (Hclaim Sample.runtime _ _ _ _ Hlat Hlon).
  vm_compute in Hclaim. discriminate Hclaim.
Qed.

(** C4 as stated fails: the two sample elements are not collapsed into one
    record named B, and the upsert is not of one row. *)
Lemma sample_elements_counterexample :
  ~ (length (@normalize [Sample.elementA; Sample.elementB]) = 2
     /\ map name (@dedupe Sample.runtime (normalize [Sample.elementA; Sample.elementB]))
          = ["B"]
     /\ exists row,
          calls (@syncHospitalsAround Sample.runtime nat Sample.signedOut
                   (Json (Some [Sample.elementA; Sample.elementB]))
                   Sample.emptyState (Sample.world 0)).1.2
          = [UpsertHospitals [row]]).
Proof.
  intros (_ & Hnames & _). vm_compute in Hnames. discriminate Hnames.
Qed.

(** A run of 401 hospitals, from the list a former run left, against a
    store that fails the second upsert. *)
Lemma reconcile_middle_chunk_fails_witness :
  error (@reconcile Sample.runtime nat Sample.secondUpsertFails
           Sample.manyHospitals Sample.staleState (Sample.world 0)).1
    = Some "Supabase upsert error: timeout"
  /\ hospitals (@reconcile Sample.runtime nat Sample.secondUpsertFails
                  Sample.manyHospitals Sample.staleState (Sample.world 0)).1
     = fallback Sample.manyHospitals
         (@mergeRows Sample.runtime
            (Sample.returnedFor (slice 0 chunkSize Sample.manyHospitals)
             ++ Sample.returnedFor (slice (2 * chunkSize) (3 * chunkSize) Sample.manyHospitals))
            (hospitals Sample.staleState)).
Proof.
  assert (Hlen : 2 * chunkSize < length Sample.manyHospitals <= 3 * chunkSize)
    by (vm_compute; lia).
  destruct (@reconcile_middle_chunk_fails Sample.runtime nat Sample.secondUpsertFails
              Sample.manyHospitals Sample.staleState (Sample.world 0) 1 2 3
              (Sample.returnedFor (slice 0 chunkSize Sample.manyHospitals))
              Sample.timeout
              (Sample.returnedFor (slice (2 * chunkSize) (3 * chunkSize) Sample.manyHospitals))
              Hlen eq_refl eq_refl eq_refl)
    as (_ & Herr & Hhosp & _).
  split; [exact Herr | exact Hhosp].
Defined.

(** C1 as stated fails: with 401 hospitals, where the store answers the
    upserts of chunks 1 and 3 with rows and fails that of chunk 2, the first
    record of chunk 2 is in the list exposed under no form: no record there
    has its key. *)
Lemma middle_chunk_records_lost :
  ~ (@upsertHospitals nat Sample.secondUpsertFails
       (map toPayload (slice 0 chunkSize Sample.manyHospitals)) 0
     = (1, Success (Some (Sample.returnedFor (slice 0 chunkSize Sample.manyHospitals)))) ->
     @upsertHospitals nat Sample.secondUpsertFails
       (map toPayload (slice chunkSize (2 * chunkSize) Sample.manyHospitals)) 1
     = (2, Failure Sample.timeout) ->
     @upsertHospitals nat Sample.secondUpsertFails
       (map toPayload (slice (2 * chunkSize) (3 * chunkSize) Sample.manyHospitals)) 2
     = (3, Success (Some (Sample.returnedFor
                            (slice (2 * chunkSize) (3 * chunkSize) Sample.manyHospitals)))) ->
     forall h,
       In h (slice chunkSize (2 * chunkSize) Sample.manyHospitals) ->
       exists h',
         In h' (hospitals
                  (@reconcile Sample.runtime nat Sample.secondUpsertFails
                     Sample.manyHospitals Sample.emptyState (Sample.world 0)).1)
         /\ @toKey Sample.runtime h' = @toKey Sample.runtime h).
Proof.
  intros Hclaim. specialize (Hclaim eq_refl eq_refl eq_refl).
  set (lost := Sample.hospitalAt "H" (ofDecimal 40200 3) Sample.lon73).
  assert (Hin : In lost (slice chunkSize (2 * chunkSize) Sample.manyHospitals))
    by (vm_compute; left; reflexivity).
  destruct (Hclaim lost Hin) as (h' & Hh' & Hkey).
  assert (Hnone :
    existsb (fun x => String.eqb (@toKey Sample.runtime x) (@toKey Sample.runtime lost))
      (hospitals
         (@reconcile Sample.runtime nat Sample.secondUpsertFails
            Sample.manyHospitals Sample.emptyState (Sample.world 0)).1) = false)
    by (vm_compute; reflexivity).
  assert (Hsome :
    existsb (fun x => String.eqb (@toKey Sample.runtime x) (@toKey Sample.runtime lost))
      (hospitals
         (@reconcile Sample.runtime nat Sample.secondUpsertFails
            Sample.manyHospitals Sample.emptyState (Sample.world 0)).1) = true).
  { apply existsb_exists. exists h'. split; [exact Hh'|].
    apply String.eqb_eq, Hkey. }
  rewrite Hnone in Hsome. discriminate Hsome.
Qed.

(** C5, at the input where the code departs from it: the list holds a
    hospital from a former run, the input holds another one, and every
    upsert fails.  The list exposed is the former one, not the input. *)
Theorem stale_list_shadows_fallback :
  (forall p b, (@upsertHospitals nat Sample.storeDown p b).2 = Failure Sample.timeout)
  /\ hospitals (@reconcile Sample.runtime nat Sample.storeDown
                  [Sample.hospitalAt "New" Sample.lat40 Sample.lon73]
                  Sample.staleState (Sample.world 0)).1
     = [Sample.hospitalAt "Old" Sample.lat40_000001 Sample.lon73_000001]
  /\ hospitals (@reconcile Sample.runtime nat Sample.storeDown
                  [Sample.hospitalAt "New" Sample.lat40 Sample.lon73]
                  Sample.staleState (Sample.world 0)).1
     <> [Sample.hospitalAt "New" Sample.lat40 Sample.lon73].
Proof.
  assert (Hrun :
    hospitals (@reconcile Sample.runtime nat Sample.storeDown
                 [Sample.hospitalAt "New" Sample.lat40 Sample.lon73]
                 Sample.staleState (Sample.world 0)).1
    = [Sample.hospitalAt "Old" Sample.lat40_000001 Sample.lon73_000001])
    by (vm_compute; reflexivity).
  split; [intros p b; reflexivity|].
  split; [exact Hrun|]. rewrite Hrun. discriminate.
Qed.

(** The same workflow with nobody signed in and a hospital the store does
    not hold yet. *)
Lemma booking_without_user_witness :
  calls (@createAppointmentFor Sample.runtime nat Sample.signedOut
           Sample.hospitalA Sample.emptyState (Sample.world 0)).2
    = [SelectHospital Sample.lat40 Sample.lon73;
       InsertHospital (toPayload Sample.hospitalA); GetUser]
  /\ message (@createAppointmentFor Sample.runtime nat Sample.signedOut
                Sample.hospitalA Sample.emptyState (Sample.world 0)).1
     = Some "Error creating appointment: User not authenticated".
Proof.
  exact (@booking_without_user Sample.runtime nat Sample.signedOut
           Sample.hospitalA Sample.emptyState (Sample.world 0) (fun b => eq_refl)).
Defined.

(** C2 as stated fails: nobody is signed in and the hospital is not in the
    store yet; the workflow reports the missing user, but has inserted the
    hospital before. *)
Lemma hospital_inserted_before_auth :
  ~ ((forall b, (@getUser nat Sample.signedOut b).2 = Success None) ->
     forallb (fun c => negb (isWrite c))
       (calls (@createAppointmentFor Sample.runtime nat Sample.signedOut
                 Sample.hospitalA Sample.emptyState (Sample.world 0)).2) = true
     /\ message (@createAppointmentFor Sample.runtime nat Sample.signedOut
                   Sample.hospitalA Sample.emptyState (Sample.world 0)).1
        = Some "Error creating appointment: User not authenticated").
Proof.
  intros Hclaim. destruct (Hclaim (fun b => eq_refl)) as [Hwrites _].
  vm_compute in Hwrites. discriminate Hwrites.
Qed.

(** A store that is down, an authentication call that fails, an insert of
    the appointment that fails, and a lookup of the hospital that fails. *)
Lemma load_bearing_failures_abort_witness :
  message (@createAppointmentFor Sample.runtime nat Sample.storeDown
             Sample.hospitalA Sample.emptyState (Sample.world 0)).1
    = Some "Error creating appointment: Failed to create hospital record: timeout"
  /\ message (@createAppointmentFor Sample.runtime nat Sample.authFails
                Sample.hospitalA Sample.emptyState (Sample.world 0)).1
     = Some "Error creating appointment: Auth fetch error: timeout"
  /\ message (@createAppointmentFor Sample.runtime nat Sample.bookingFails
                Sample.hospitalA Sample.emptyState (Sample.world 0)).1
     = Some "Error creating appointment: Appointment insert error: timeout"
  /\ exists rest,
       calls (@createAppointmentFor Sample.runtime nat Sample.lookupFails
                Sample.hospitalA Sample.emptyState (Sample.world 0)).2
       = SelectHospital Sample.lat40 Sample.lon73
         :: InsertHospital (toPayload Sample.hospitalA) :: GetUser :: rest.
Proof.
  split; [|split; [|split]].
  - destruct (@load_bearing_failures_abort Sample.runtime nat Sample.storeDown
                Sample.hospitalA Sample.emptyState (Sample.world 0)) as (Hins & _).
    exact (proj2 (Hins Sample.timeout eq_refl eq_refl)).
  - destruct (@load_bearing_failures_abort Sample.runtime nat Sample.authFails
                Sample.hospitalA Sample.emptyState (Sample.world 0)) as (_ & Hauth & _).
    exact (proj2 (Hauth _ _ eq_refl)).
  - destruct (@load_bearing_failures_abort Sample.runtime nat Sample.bookingFails
                Sample.hospitalA Sample.emptyState (Sample.world 0)) as (_ & _ & Hbook & _).
    exact (proj1 (proj2 (Hbook _ _ _ _ Sample.timeout eq_refl eq_refl eq_refl))).
  - destruct (@load_bearing_failures_abort Sample.runtime nat Sample.lookupFails
                Sample.hospitalA Sample.emptyState (Sample.world 0)) as (_ & _ & _ & Hlook).
    destruct (Hlook Sample.timeout eq_refl) as (rest & Hcalls & Hnext).
    destruct (Hnext _ eq_refl) as (rest' & ->).
    exists rest'. exact Hcalls.
Defined.

(** C7 as stated fails: the lookup of step 1 fails, and the workflow goes
    on to create the appointment. *)
Lemma lookup_failure_does_not_abort :
  ~ ((@selectHospital nat Sample.lookupFails Sample.lat40 Sample.lon73 0).2
       = Failure Sample.timeout ->
     exists msg,
       message (@createAppointmentFor Sample.runtime nat Sample.lookupFails
                  Sample.hospitalA Sample.emptyState (Sample.world 0)).1
       = Some ("Error creating appointment: " +:+ msg)).
Proof.
  intros Hclaim. destruct (Hclaim eq_refl) as [msg Hmsg].
  vm_compute in Hmsg. discriminate Hmsg.
Qed.

(** A known hospital, a failing profile lookup and no assessment: the
    appointment is created under the user's own id. *)
Lemma lookups_degrade_to_fallbacks_witness :
  calls (@createAppointmentFor Sample.runtime nat Sample.noProfile
           Sample.hospitalA Sample.emptyState (Sample.world 0)).2
    = [SelectHospital Sample.lat40 Sample.lon73; GetUser;
       SelectProfile "alice"; SelectAssessment "alice";
       InsertAppointment
         {| user_id := Some (IdStr "alice"); hospital_id := Some (IdNum 5);
            assessment_id := None; notes := None; status := "pending" |}]
  /\ message (@createAppointmentFor Sample.runtime nat Sample.noProfile
                Sample.hospitalA Sample.emptyState (Sample.world 0)).1
     = Some "Appointment created (status: pending).".
Proof.
  destruct (@lookups_degrade_to_fallbacks Sample.runtime nat Sample.noProfile
              Sample.hospitalA Sample.emptyState (Sample.world 0) _ _ _ _ eq_refl eq_refl)
    as (_ & _ & Hcalls & Hmsg).
  split; [exact Hcalls | exact Hmsg].
Defined.

(** * Further properties of the component *)

(** ** Normalisation *)

Lemma orElse_not_empty (a b : option string) :
  b <> Some "" -> orElse a b <> Some "".
Proof.
  intros Hb. destruct a as [s|]; cbn [orElse]; [|exact Hb].
  destruct (String.eqb_spec s ""); [exact Hb | congruence].
Qed.

Lemma orElse_None (a b : option string) :
  orElse a b = None <-> stringTruthy a = false /\ b = None.
Proof.
  destruct a as [s|]; cbn [orElse stringTruthy].
  - destruct (String.eqb_spec s ""); cbn [negb]; split;
      try tauto; try discriminate; intros [? ?]; discriminate.
  - tauto.
Qed.

Lemma orElse_truthy (a b : option string) :
  stringTruthy a = true -> orElse a b = a.
Proof.
  destruct a as [s|]; cbn [orElse stringTruthy]; [|discriminate].
  destruct (String.eqb s ""); [discriminate | reflexivity].
Qed.

Lemma presentParts_nil (parts : list (option string)) :
  presentParts parts = [] <-> Forall (fun p => stringTruthy p = false) parts.
Proof.
  unfold presentParts. induction parts as [|p parts IH]; simpl.
  - split; [constructor | reflexivity].
  - destruct (stringTruthy p) eqn:Hp.
    + destruct p as [s|]; [|discriminate Hp].
      split; [discriminate|]. intros Hall. inversion Hall; congruence.
    + rewrite IH. split.
      * intros Hall. constructor; assumption.
      * intros Hall. inversion Hall; assumption.
Qed.

Lemma presentParts_not_empty (parts : list (option string)) (s : string) :
  In s (presentParts parts) -> s <> "".
Proof.
  unfold presentParts. intros Hin. apply list_elem_of_In in Hin.
  apply list_elem_of_omap in Hin as (p & _ & Hp).
  destruct p as [t|]; [|discriminate].
  cbn [stringTruthy] in Hp. destruct (String.eqb_spec t ""); cbn [negb] in Hp;
    [discriminate|]. injection Hp as <-. assumption.
Qed.

(** Strings joined with a separator are empty only when there is nothing
    to join, if none of them is empty. *)
Lemma concat_empty (sep : string) (l : list string) :
  (forall s, In s l -> s <> "") -> String.concat sep l = "" -> l = [].
Proof.
  intros Hne Hc. destruct l as [|x l]; [reflexivity|].
  exfalso. assert (Hx : x <> "") by (apply Hne; left; reflexivity).
  destruct x as [|c x]; [congruence|].
  destruct l; cbn in Hc; discriminate Hc.
Qed.

Section Normalisation.

(** X1. An element is dropped exactly when its latitude or its longitude,
    taken from the element or else from its center, is missing, zero or
    NaN; a kept element gives a record at these coordinates.  A direct
    coordinate of zero drops the element even when the center has one. *)
Theorem mapElement_kept_iff_usable (el : Element) :
  (mapElement el = None <->
     usable (resolvedLat el) && usable (resolvedLon el) = false)
  /\ (forall h, mapElement el = Some h ->
        resolvedLat el = Some (latitude h) /\ resolvedLon el = Some (longitude h))
  /\ (forall x, el_lat el = Some x -> truthy x = false -> mapElement el = None)
  /\ (forall x, el_lon el = Some x -> truthy x = false -> mapElement el = None).
Proof.
  assert (Hmain : forall la lo,
            resolvedLat el = la -> resolvedLon el = lo ->
            (mapElement el = None <-> usable la && usable lo = false)
            /\ (forall h, mapElement el = Some h ->
                  la = Some (latitude h) /\ lo = Some (longitude h))).
  { intros la lo Hla Hlo. unfold mapElement.
    fold (resolvedLat el) (resolvedLon el). rewrite Hla, Hlo.
    destruct la as [x|], lo as [y|]; cbn [usable andb];
      try (split; [split; [reflexivity | intros _; (reflexivity || apply andb_false_r)]
                  | discriminate]).
    - destruct (truthy x && truthy y) eqn:Hxy.
      + split; [split; discriminate|]. intros h [= <-]. split; reflexivity.
      + split; [tauto | discriminate].
    - split; [split; [intros _; apply andb_false_r | reflexivity] | discriminate]. }
  destruct (Hmain _ _ eq_refl eq_refl) as [Hiff Hsome].
  split; [exact Hiff|]. split; [exact Hsome|]. split.
  - intros x Hx Hfalse. apply Hiff. unfold resolvedLat. rewrite Hx.
    cbn [nullish usable]. rewrite Hfalse. reflexivity.
  - intros x Hx Hfalse. apply Hiff. unfold resolvedLon. rewrite Hx.
    cbn [nullish usable]. rewrite Hfalse. apply andb_false_r.
Qed.

(** X2. Every normalised record has no id, a latitude and a longitude that
    are neither zero nor NaN, a name that is not empty, an emergency flag,
    and an address, a phone and specialities that are absent rather than
    empty. *)
Theorem normalize_records_well_formed (elements : list Element) (h : HospitalRow) :
  In h (normalize elements) ->
  row_id h = None
  /\ truthy (latitude h) = true
  /\ truthy (longitude h) = true
  /\ name h <> ""
  /\ address h <> Some ""
  /\ phone h <> Some ""
  /\ specialities h <> Some ""
  /\ emergency_available h <> None.
Proof.
  intros Hin. apply list_elem_of_In in Hin. unfold normalize in Hin.
  apply list_elem_of_omap in Hin as (el & _ & Hel).
  unfold mapElement in Hel.
  destruct (nullish (el_lat el) _) as [la|]; [|discriminate].
  destruct (nullish (el_lon el) _) as [lo|]; [|discriminate].
  destruct (truthy la && truthy lo) eqn:Hxy; [|discriminate].
  apply andb_true_iff in Hxy as [Hla Hlo].
  injection Hel as <-. cbn [row_id latitude longitude name address phone
                             specialities emergency_available].
  repeat split; try assumption; try discriminate.
  - pose proof (orElse_not_empty (tag tag_name el) None) as Hn.
    destruct (orElse (tag tag_name el) None) as [s|]; simpl.
    + intros Hs. subst s. apply Hn; [discriminate | reflexivity].
    + discriminate.
  - apply orElse_not_empty, orElse_not_empty. discriminate.
  - apply orElse_not_empty, orElse_not_empty. discriminate.
  - apply orElse_not_empty, orElse_not_empty. discriminate.
Qed.

(** X3. The address of a normalised record is the full address when the
    element has one; it is absent exactly when the full address, the
    street, the house number, the city and the description are all
    missing or empty. *)
Theorem mapElement_address (el : Element) (h : HospitalRow) :
  mapElement el = Some h ->
  (stringTruthy (tag tag_addr_full el) = true -> address h = tag tag_addr_full el)
  /\ (address h = None <->
        stringTruthy (tag tag_addr_full el) = false
        /\ stringTruthy (tag tag_addr_street el) = false
        /\ stringTruthy (tag tag_addr_housenumber el) = false
        /\ stringTruthy (tag tag_addr_city el) = false
        /\ stringTruthy (tag tag_description el) = false).
Proof.
  intros Hel. unfold mapElement in Hel.
  destruct (nullish (el_lat el) _) as [la|]; [|discriminate].
  destruct (nullish (el_lon el) _) as [lo|]; [|discriminate].
  destruct (truthy la && truthy lo); [|discriminate].
  set (parts := [tag tag_addr_street el; tag tag_addr_housenumber el;
                 tag tag_addr_city el]) in Hel.
  remember (presentParts parts) as present eqn:Hpresent.
  injection Hel as <-. cbn [address]. subst present.
  split.
  - intros Hfull. rewrite (orElse_truthy (tag tag_addr_full el)) by exact Hfull.
    apply orElse_truthy, Hfull.
  - rewrite orElse_None, orElse_None.
    assert (Hparts : presentParts parts = [] <->
                     stringTruthy (tag tag_addr_street el) = false
                     /\ stringTruthy (tag tag_addr_housenumber el) = false
                     /\ stringTruthy (tag tag_addr_city el) = false).
    { rewrite presentParts_nil. subst parts. split.
      - intros Hall. inversion Hall as [|? ? H1 Hall1]; subst.
        inversion Hall1 as [|? ? H2 Hall2]; subst.
        inversion Hall2; subst. auto.
      - intros (H1 & H2 & H3). repeat constructor; assumption. }
    assert (Hinner : stringTruthy
                       (orElse (tag tag_addr_full el)
                          (Some (String.concat ", " (presentParts parts)))) = false <->
                     stringTruthy (tag tag_addr_full el) = false
                     /\ presentParts parts = []).
    { destruct (stringTruthy (tag tag_addr_full el)) eqn:Hfull.
      - rewrite (orElse_truthy _ _ Hfull), Hfull.
        split; [discriminate | intros [? _]; discriminate].
      - assert (Hor : orElse (tag tag_addr_full el)
                        (Some (String.concat ", " (presentParts parts)))
                      = Some (String.concat ", " (presentParts parts))).
        { destruct (tag tag_addr_full el) as [s|]; cbn [orElse]; [|reflexivity].
          cbn [stringTruthy] in Hfull. destruct (String.eqb s ""); [reflexivity|].
          discriminate Hfull. }
        rewrite Hor. cbn [stringTruthy]. split.
        + intros Hc. split; [reflexivity|].
          apply (concat_empty ", "); [apply presentParts_not_empty|].
          destruct (String.eqb_spec (String.concat ", " (presentParts parts)) "");
            [assumption | discriminate Hc].
        + intros [_ ->]. reflexivity. }
    rewrite Hinner, Hparts. intuition.
Qed.

End Normalisation.

(** ** Deduplication and merge *)

(** Two maps with the same keys, in the same order, and the same value under
    each key are the same map. *)
Lemma JsMap_ext {V : Type} (m1 m2 : JsMap.t V) :
  NoDup (JsMap.keys m1) ->
  JsMap.keys m1 = JsMap.keys m2 ->
  (forall k, JsMap.get k m1 = JsMap.get k m2) ->
  m1 = m2.
Proof.
  revert m2. induction m1 as [|[k v] m1 IH]; intros [|[k2 v2] m2] Hnd Hkeys Hget;
    try discriminate Hkeys; [reflexivity|].
  cbn [JsMap.keys map fst] in Hkeys. injection Hkeys as <- Hkeys.
  apply NoDup_cons in Hnd as [Hnotin Hnd].
  assert (Hv : v = v2).
  { specialize (Hget k). cbn [JsMap.get] in Hget.
    rewrite String.eqb_refl in Hget. congruence. }
  subst v2. f_equal. apply IH; [exact Hnd | exact Hkeys|].
  intros k'. destruct (String.eqb_spec k k') as [<-|Hne].
  - assert (H1 : JsMap.get k m1 = None)
      by (apply JsMap_get_None; intros Hin; apply Hnotin, list_elem_of_In, Hin).
    assert (H2 : JsMap.get k m2 = None).
    { apply JsMap_get_None. unfold JsMap.keys in *. rewrite <- Hkeys.
      intros Hin. apply Hnotin, list_elem_of_In, Hin. }
    congruence.
  - specialize (Hget k'). cbn [JsMap.get] in Hget.
    destruct (String.eqb_spec k k'); [contradiction | exact Hget].
Qed.

Section DedupMore.

Context `{Runtime}.

Lemma uniq_of_distinct (l : list HospitalRow) :
  NoDup (map toKey l) -> uniq l = map (fun h => (toKey h, h)) l.
Proof.
  intros Hnd. unfold uniq.
  pose proof (refill [] (map (fun h => (toKey h, h)) l)) as Hfill.
  unfold JsMap.values, JsMap.keys in Hfill.
  rewrite !map_map in Hfill. cbn [fst snd app] in Hfill.
  rewrite map_id in Hfill. apply Hfill.
  - rewrite map_map. exact Hnd.
  - intros k h Hin. apply in_map_iff in Hin as (h' & [= <- <-] & _).
    reflexivity.
Qed.

Lemma dedupe_of_distinct (l : list HospitalRow) :
  NoDup (map toKey l) -> dedupe l = l.
Proof.
  intros Hnd. unfold dedupe, JsMap.values. rewrite (uniq_of_distinct l Hnd).
  rewrite map_map. cbn [snd]. apply map_id.
Qed.

Lemma dedupe_keys_NoDup (l : list HospitalRow) : NoDup (map toKey (dedupe l)).
Proof. rewrite dedupe_keys. apply uniq_NoDup. Qed.

(** X4. Deduplication leaves a list unchanged exactly when no two of its
    records share a key; deduplicating twice is deduplicating once. *)
Theorem dedupe_fixpoint (l : list HospitalRow) :
  (dedupe l = l <-> NoDup (map toKey l))
  /\ dedupe (dedupe l) = dedupe l.
Proof.
  split.
  - split.
    + intros Heq. rewrite <- Heq. apply dedupe_keys_NoDup.
    + apply dedupe_of_distinct.
  - apply dedupe_of_distinct, dedupe_keys_NoDup.
Qed.

Lemma mergeRows_keys (data : list DbRow) (prev : list HospitalRow) :
  map toKey (mergeRows data prev) = JsMap.keys (merged data prev).
Proof.
  rewrite mergeRows_values. unfold JsMap.values, JsMap.keys. rewrite map_map.
  apply map_ext_in. intros [k h] Hin. cbn [fst snd]. symmetry.
  apply (merged_entry data prev).
  apply JsMap_In_get; [apply merged_NoDup | exact Hin].
Qed.

Lemma mergeRows_keys_NoDup (data : list DbRow) (prev : list HospitalRow) :
  NoDup (map toKey (mergeRows data prev)).
Proof. rewrite mergeRows_keys. apply merged_NoDup. Qed.

(** Rows whose keys the map already holds are filled in without changing
    its keys. *)
Lemma fill_keys_held {A V : Type} (f : A -> string) (g : A -> V)
  (l : list A) (m : JsMap.t V) :
  (forall x, In x l -> In (f x) (JsMap.keys m)) ->
  JsMap.keys (fold_left (fun m x => JsMap.set (f x) (g x) m) l m) = JsMap.keys m.
Proof.
  revert m. induction l as [|x l IH]; intros m Hheld; cbn [fold_left];
    [reflexivity|].
  assert (Hx : In (f x) (JsMap.keys m)) by (apply Hheld; left; reflexivity).
  rewrite IH.
  - apply JsMap_keys_set_old, Hx.
  - intros y Hy. rewrite JsMap_keys_set_old by exact Hx.
    apply Hheld. right. exact Hy.
Qed.

(** X6. Merging the same returned rows a second time changes nothing. *)
Theorem mergeRows_idempotent (data : list DbRow) (prev : list HospitalRow) :
  mergeRows data (mergeRows data prev) = mergeRows data prev.
Proof.
  rewrite mergeRows_app, !mergeRows_values. f_equal.
  apply JsMap_ext.
  - apply merged_NoDup.
  - unfold merged. rewrite fold_left_app.
    apply (fill_keys_held dbKey fromDb). intros r Hr.
    apply (fill_keys dbKey fromDb). left. apply in_map, Hr.
  - intros k. rewrite !merged_get, rev_app_distr, find_append.
    destruct (find _ (rev data)); reflexivity.
Qed.

End DedupMore.

(** ** The shape of the chunks *)

Section ChunkShape.

Context {A : Type}.
Implicit Types u : list A.

Lemma chunksFrom_lookup fuel i u k :
  length u - i <= fuel ->
  chunksFrom fuel i u !! k =
  if (i + k * chunkSize <? length u)%nat
  then Some (slice (i + k * chunkSize) (i + k * chunkSize + chunkSize) u)
  else None.
Proof.
  pose proof chunkSize_pos as Hpos.
  revert i k. induction fuel as [|fuel IH]; intros i k Hfuel.
  - cbn [chunksFrom]. destruct (Nat.ltb_spec (i + k * chunkSize) (length u));
      [lia | reflexivity].
  - destruct (Nat.lt_ge_cases i (length u)) as [Hlt|Hge].
    + rewrite chunksFrom_lt by assumption. destruct k as [|k].
      * rewrite Nat.mul_0_l, Nat.add_0_r.
        destruct (Nat.ltb_spec i (length u)); [reflexivity | lia].
      * change ((slice i (i + chunkSize) u :: chunksFrom fuel (i + chunkSize) u) !! S k)
          with (chunksFrom fuel (i + chunkSize) u !! k).
        rewrite (IH (i + chunkSize) k) by lia.
        rewrite Nat.mul_succ_l.
        replace (i + chunkSize + k * chunkSize)
          with (i + (k * chunkSize + chunkSize)) by lia.
        reflexivity.
    + rewrite chunksFrom_ge by assumption.
      destruct (Nat.ltb_spec (i + k * chunkSize) (length u)); [lia|].
      destruct k; reflexivity.
Qed.

Lemma chunksFrom_length fuel i u :
  length u - i <= fuel ->
  length (chunksFrom fuel i u) = (length u - i + chunkSize - 1) / chunkSize.
Proof.
  pose proof chunkSize_pos as Hpos.
  revert i. induction fuel as [|fuel IH]; intros i Hfuel.
  - cbn [chunksFrom length]. symmetry. apply Nat.div_small. lia.
  - destruct (Nat.lt_ge_cases i (length u)) as [Hlt|Hge].
    + rewrite chunksFrom_lt by assumption. cbn [length]. rewrite IH by lia.
      replace (length u - i + chunkSize - 1)
        with (length u - i - 1 + 1 * chunkSize) by lia.
      rewrite Nat.div_add by lia.
      destruct (Nat.le_gt_cases chunkSize (length u - i)) as [Hfull|Hpart].
      * replace (length u - (i + chunkSize) + chunkSize - 1)
          with (length u - i - 1) by lia.
        lia.
      * rewrite !Nat.div_small by lia. reflexivity.
    + rewrite chunksFrom_ge by assumption. cbn [length]. symmetry.
      apply Nat.div_small. lia.
Qed.

(** X7. The loop cuts [ceil(n / chunkSize)] chunks out of [n] records; the
    chunk of rank [k] is the slice from [k * chunkSize], so every chunk is
    full but the last, which holds what is left, at least one record. *)
Theorem chunksOf_shape u :
  length (chunksOf u) = (length u + chunkSize - 1) / chunkSize
  /\ forall k, k < length (chunksOf u) ->
       chunksOf u !! k = Some (slice (k * chunkSize) (k * chunkSize + chunkSize) u)
       /\ k * chunkSize < length u
       /\ length (slice (k * chunkSize) (k * chunkSize + chunkSize) u)
          = Nat.min chunkSize (length u - k * chunkSize).
Proof.
  pose proof chunkSize_pos as Hpos. unfold chunksOf. split.
  - rewrite chunksFrom_length by lia. f_equal. lia.
  - intros k Hk. apply lookup_lt_is_Some_2 in Hk as [c Hc].
    rewrite chunksFrom_lookup in Hc by lia. cbn [Nat.add] in Hc.
    destruct (Nat.ltb_spec (k * chunkSize) (length u)) as [Hlt|]; [|discriminate].
    rewrite chunksFrom_lookup by lia. cbn [Nat.add].
    destruct (Nat.ltb_spec (k * chunkSize) (length u)); [|lia].
    split; [reflexivity|]. split; [exact Hlt|].
    unfold slice. rewrite length_firstn, length_skipn. f_equal. lia.
Qed.

End ChunkShape.

(** ** A run of [syncHospitalsAround] as a whole *)

Section Sync.

Context `{Runtime} {B : Type} `{Supabase B}.

Implicit Types (st : State) (w : World B).

(** What the upsert of a chunk leaves untouched, and what it may have
    done. *)
Lemma upsertChunk_frame (c : list HospitalRow) st w :
  syncing (upsertChunk c st w).1 = syncing st
  /\ openNoteIdx (upsertChunk c st w).1 = openNoteIdx st
  /\ notesMap (upsertChunk c st w).1 = notesMap st
  /\ processingMap (upsertChunk c st w).1 = processingMap st
  /\ message (upsertChunk c st w).1 = message st
  /\ (NoDup (map toKey (hospitals st)) ->
      NoDup (map toKey (hospitals (upsertChunk c st w).1)))
  /\ ((forall p b, exists data, (upsertHospitals p b).2 = Success data) ->
      error (upsertChunk c st w).1 = error st).
Proof.
  unfold upsertChunk.
  destruct (upsertHospitals (map toPayload c) (backend w)) as [b ans] eqn:Hans.
  destruct ans as [e|[data|]]; cbn; repeat split; auto.
  - intros Hok. destruct (Hok (map toPayload c) (backend w)) as [data Hdata].
    rewrite Hans in Hdata. discriminate Hdata.
  - intros _. apply mergeRows_keys_NoDup.
Qed.

Lemma fold_step_frame (cs : list (list HospitalRow)) st w :
  let r := fold_left step cs (st, w) in
  syncing r.1 = syncing st
  /\ openNoteIdx r.1 = openNoteIdx st
  /\ notesMap r.1 = notesMap st
  /\ processingMap r.1 = processingMap st
  /\ message r.1 = message st
  /\ (NoDup (map toKey (hospitals st)) -> NoDup (map toKey (hospitals r.1)))
  /\ ((forall p b, exists data, (upsertHospitals p b).2 = Success data) ->
      error r.1 = error st).
Proof.
  cbn zeta. revert st w. induction cs as [|c cs IH]; intros st w; cbn [fold_left].
  - cbn [fst]. repeat split; auto.
  - change (step (st, w) c) with (upsertChunk c st w).
    destruct (upsertChunk_frame c st w) as (Hs1 & Ho1 & Hn1 & Hp1 & Hm1 & Hk1 & He1).
    destruct (upsertChunk c st w) as [st1 w1]. cbn [fst] in *.
    destruct (IH st1 w1) as (Hs & Ho & Hn & Hp & Hm & Hk & He).
    repeat split; try congruence; auto.
    intros Hok. rewrite (He Hok). auto.
Qed.

(** A run on elements, of which there is at least one. *)
Lemma sync_elements (el : Element) (elements : list Element) st w :
  syncHospitalsAround (Json (Some (el :: elements))) st w =
  (setSyncing false
     (reconcile (dedupe (normalize (el :: elements)))
        (setError None (setSyncing true st)) w).1,
   (reconcile (dedupe (normalize (el :: elements)))
      (setError None (setSyncing true st)) w).2,
   None).
Proof.
  unfold syncHospitalsAround.
  destruct (reconcile _ _ w) as [st' w']. reflexivity.
Qed.

(** X5. If no two hospitals of the list share a key before a run of
    [syncHospitalsAround], none do after it, whatever the provider and the
    store answered. *)
Theorem sync_keeps_keys_distinct (fetched : Fetched) st w :
  NoDup (map toKey (hospitals st)) ->
  NoDup (map toKey (hospitals (syncHospitalsAround fetched st w).1.1)).
Proof.
  intros Hnd. destruct fetched as [reason|statusText|[[|el elements]|]];
    try exact Hnd; try (cbn; constructor).
  rewrite sync_elements. cbn [fst]. rewrite reconcile_chunks.
  cbn [fst hospitals setSyncing setHospitals].
  destruct (fold_step_frame (chunksOf (dedupe (normalize (el :: elements))))
              (setError None (setSyncing true st)) w)
    as (_ & _ & _ & _ & _ & Hk & _).
  specialize (Hk Hnd).
  destruct (hospitals (fold_left step _ _).1); cbn [fallback];
    [apply dedupe_keys_NoDup | exact Hk].
Qed.

(** X8. A run of [syncHospitalsAround] changes neither the message, the
    notes, the processing flags nor the open note; the only calls it makes
    are upserts of hospitals, [ceil(n / chunkSize)] of them for [n]
    deduplicated records, and none when the provider gave no usable
    answer. *)
Theorem sync_frame (fetched : Fetched) st w :
  let r := syncHospitalsAround fetched st w in
  message r.1.1 = message st
  /\ notesMap r.1.1 = notesMap st
  /\ processingMap r.1.1 = processingMap st
  /\ openNoteIdx r.1.1 = openNoteIdx st
  /\ calls r.1.2 =
       calls w ++
       match fetched with
       | Json (Some elements) =>
           map (fun c => UpsertHospitals (map toPayload c))
             (chunksOf (dedupe (normalize elements)))
       | _ => []
       end
  /\ length (calls r.1.2) =
       length (calls w) +
       match fetched with
       | Json (Some elements) =>
           (length (dedupe (normalize elements)) + chunkSize - 1) / chunkSize
       | _ => 0
       end.
Proof.
  cbn zeta.
  assert (Hcalls : calls (syncHospitalsAround fetched st w).1.2 =
                   calls w ++
                   match fetched with
                   | Json (Some elements) =>
                       map (fun c => UpsertHospitals (map toPayload c))
                         (chunksOf (dedupe (normalize elements)))
                   | _ => []
                   end).
  { destruct fetched as [reason|statusText|[[|el elements]|]];
      try (cbn; rewrite app_nil_r; reflexivity).
    rewrite sync_elements. cbn [fst snd]. apply reconcile_calls. }
  assert (Hframe : message (syncHospitalsAround fetched st w).1.1 = message st
                   /\ notesMap (syncHospitalsAround fetched st w).1.1 = notesMap st
                   /\ processingMap (syncHospitalsAround fetched st w).1.1
                      = processingMap st
                   /\ openNoteIdx (syncHospitalsAround fetched st w).1.1
                      = openNoteIdx st).
  { destruct fetched as [reason|statusText|[[|el elements]|]];
      try (cbn; repeat split; reflexivity).
    rewrite sync_elements. cbn [fst]. rewrite reconcile_chunks.
    cbn [fst message notesMap processingMap openNoteIdx setSyncing setHospitals].
    destruct (fold_step_frame (chunksOf (dedupe (normalize (el :: elements))))
                (setError None (setSyncing true st)) w)
      as (_ & Ho & Hn & Hp & Hm & _).
    rewrite Ho, Hn, Hp, Hm. repeat split; reflexivity. }
  destruct Hframe as (Hm & Hn & Hp & Ho).
  repeat split; try assumption.
  rewrite Hcalls, length_app. f_equal.
  destruct fetched as [reason|statusText|[elements|]]; try reflexivity.
  rewrite length_map. apply chunksOf_shape.
Qed.

(** X9. When the provider gives elements none of which has usable
    coordinates, the run calls nothing and leaves the list as it was; when
    it gives no element at all, the run empties the list. *)
Theorem sync_nothing_usable (elements : list Element) st w :
  elements <> [] ->
  normalize elements = [] ->
  hospitals (syncHospitalsAround (Json (Some elements)) st w).1.1 = hospitals st
  /\ calls (syncHospitalsAround (Json (Some elements)) st w).1.2 = calls w
  /\ hospitals (syncHospitalsAround (Json (Some [])) st w).1.1 = []
  /\ hospitals (syncHospitalsAround (Json None) st w).1.1 = [].
Proof.
  intros Hne Hnone. destruct elements as [|el elements]; [congruence|].
  split; [|split; [|split; reflexivity]].
  - rewrite sync_elements, Hnone. cbn. destruct (hospitals st); reflexivity.
  - rewrite sync_elements, Hnone. cbn. reflexivity.
Qed.

(** X10. A run that starts from an empty list, as the first run and every
    run after a click on "Clear" do, and in which no upsert brings a row
    exposes the deduplicated records of the provider's answer. *)
Theorem sync_fallback_after_clear (elements : option (list Element)) st w :
  (forall p b, noRows (upsertHospitals p b).2) ->
  hospitals (syncHospitalsAround (Json elements) (clearAll st) w).1.1
    = dedupe (normalize (default [] elements))
  /\ hospitals (syncHospitalsAround (Json elements) (core initialPage) w).1.1
     = dedupe (normalize (default [] elements)).
Proof.
  intros Hno.
  assert (Hany : forall st0, hospitals st0 = [] ->
            hospitals (syncHospitalsAround (Json elements) st0 w).1.1
            = dedupe (normalize (default [] elements))).
  { intros st0 Hempty. destruct elements as [[|el elements]|];
      try reflexivity.
    rewrite sync_elements. cbn [fst hospitals setSyncing].
    apply reconcile_fallback_from_empty; [exact Hempty | exact Hno]. }
  split; apply Hany; reflexivity.
Qed.

(** X11. When every upsert of a run succeeds, the error of a former run is
    gone after it; when the provider answers with a status that is not ok,
    the run throws that status, calls nothing and leaves the list and the
    syncing flag down. *)
Theorem sync_error_reporting (fetched : Fetched) st w :
  (forall p b, exists data, (upsertHospitals p b).2 = Success data) ->
  match fetched with
  | Json _ =>
      error (syncHospitalsAround fetched st w).1.1 = None
      /\ syncing (syncHospitalsAround fetched st w).1.1 = false
      /\ (syncHospitalsAround fetched st w).2 = None
  | NotOk statusText =>
      (syncHospitalsAround fetched st w).2
        = Some ("Overpass API error: " +:+ statusText)
      /\ syncing (syncHospitalsAround fetched st w).1.1 = false
      /\ hospitals (syncHospitalsAround fetched st w).1.1 = hospitals st
  | Rejected reason =>
      (syncHospitalsAround fetched st w).2 = Some reason
      /\ syncing (syncHospitalsAround fetched st w).1.1 = true
      /\ hospitals (syncHospitalsAround fetched st w).1.1 = hospitals st
  end.
Proof.
  intros Hok. destruct fetched as [reason|statusText|[[|el elements]|]];
    try (cbn; repeat split; reflexivity).
  rewrite sync_elements. cbn [fst snd]. rewrite reconcile_chunks.
  cbn [fst error syncing setSyncing setHospitals].
  destruct (fold_step_frame (chunksOf (dedupe (normalize (el :: elements))))
              (setError None (setSyncing true st)) w)
    as (_ & _ & _ & _ & _ & _ & He).
  rewrite (He Hok). repeat split; reflexivity.
Qed.

End Sync.

(** ** The appointment workflow, call by call *)

Section BookingPaths.

Context `{Runtime} {B : Type} `{Supabase B}.

Implicit Types (h : HospitalRow) (st : State) (w : World B).

(** Every way through [createAppointmentFor]: the calls it makes, and the
    appointment it sends when it gets that far. *)
Lemma booking_paths h st w :
  let sel := selectHospital (latitude h) (longitude h) (backend w) in
  let found := identTruthy (firstId sel.2) in
  let inserted := (insertHospital (toPayload h) sel.1).2 in
  exists ins rest,
    calls (createAppointmentFor h st w).2 =
      calls w ++ SelectHospital (latitude h) (longitude h) :: ins ++ rest
    /\ ((ins = [] /\ found = true)
        \/ (ins = [InsertHospital (toPayload h)] /\ found = false))
    /\ ((rest = [] /\ found = false /\ exists e, inserted = Failure e)
        \/ rest = [GetUser]
        \/ exists u a,
             rest = [GetUser; SelectProfile (uid u); SelectAssessment (uid u);
                     InsertAppointment a]
             /\ status a = "pending"
             /\ notes a = notesMap st !! toKey h
             /\ hospital_id a =
                  if found then firstId sel.2
                  else match inserted with
                       | Success (Some (r :: _)) => db_id r
                       | _ => None
                       end).
Proof.
  intros sel found inserted. subst sel found inserted.
  rewrite createAppointmentFor_result.
  assert (Hstep2 : forall w1 hid pre,
    resolveHospitalId h w = (w1, inr hid) ->
    calls w1 = calls w ++ SelectHospital (latitude h) (longitude h) :: pre ->
    exists rest,
      calls (match createBody h (toKey h) st w with
             | (w2, inr _) => (completed (toKey h) st, w2)
             | (w2, inl msg) =>
                 (aborted (toKey h) msg st, logTo "createAppointmentFor error" w2)
             end).2
      = calls w ++ SelectHospital (latitude h) (longitude h) :: pre ++ rest
      /\ (rest = [GetUser]
          \/ exists u a,
               rest = [GetUser; SelectProfile (uid u); SelectAssessment (uid u);
                       InsertAppointment a]
               /\ status a = "pending"
               /\ notes a = notesMap st !! toKey h
               /\ hospital_id a = hid)).
  { intros w1 hid pre H1 Hc1.
    destruct (currentUser_result w1) as (w2 & H2 & Hc2 & _).
    destruct (getUser (backend w1)).2 as [e|[u|]].
    - rewrite (createBody_step2_throws _ _ _ _ _ _ _ _ H1 H2).
      cbn [fst snd logTo calls]. exists [GetUser]. rewrite Hc2, Hc1.
      split; [|left; reflexivity].
      rewrite <- app_assoc. reflexivity.
    - rewrite (createBody_steps _ _ _ _ _ _ _ _ H1 H2).
      destruct (bookFor_result (toKey h) st hid u w2) as (w3 & Hb & Hc3).
      rewrite Hb. eexists. split.
      + match goal with
        | |- context [match ?x with Failure _ => _ | Success _ => _ end] =>
            destruct x
        end; cbn [fst snd logTo calls]; rewrite Hc3, Hc2, Hc1;
          rewrite <- !app_assoc; reflexivity.
      + right. eexists u, _. split; [reflexivity|]. repeat split.
    - rewrite (createBody_step2_throws _ _ _ _ _ _ _ _ H1 H2).
      cbn [fst snd logTo calls]. exists [GetUser]. rewrite Hc2, Hc1.
      split; [|left; reflexivity].
      rewrite <- app_assoc. reflexivity. }
  destruct (identTruthy
              (firstId (selectHospital (latitude h) (longitude h) (backend w)).2))
    eqn:Hid.
  - destruct (resolveHospitalId_found h w Hid) as (w1 & H1 & Hc1).
    destruct (Hstep2 w1 _ [] H1 Hc1) as (rest & Hcalls & Hrest).
    exists [], rest. split; [exact Hcalls|]. split; [left; auto|].
    destruct Hrest as [->|(u & a & -> & Hs & Hn & Hh)]; [right; left; reflexivity|].
    right. right. exists u, a. auto.
  - destruct (resolveHospitalId_insert h w Hid) as (w1 & H1 & Hc1 & _).
    destruct (insertHospital (toPayload h) _).2 as [e|rows] eqn:Hins.
    + rewrite (createBody_step1_throws _ _ _ _ _ _ H1).
      cbn [fst snd logTo calls].
      exists [InsertHospital (toPayload h)], []. rewrite Hc1.
      split; [reflexivity|]. split; [right; auto|].
      left. split; [reflexivity|]. split; [reflexivity|]. exists e. reflexivity.
    + assert (Hr : resolveHospitalId h w =
                   (w1, inr match rows with
                            | Some (r :: _) => db_id r
                            | _ => None
                            end)).
      { destruct rows as [[|r rows]|]; exact H1. }
      destruct (Hstep2 w1 _ [InsertHospital (toPayload h)] Hr Hc1)
        as (rest & Hcalls & Hrest).
      exists [InsertHospital (toPayload h)], rest.
      split; [exact Hcalls|]. split; [right; auto|].
      destruct Hrest as [->|(u & a & -> & Hs & Hn & Hh)]; [right; left; reflexivity|].
      right. right. exists u, a. rewrite Hh.
      repeat split; assumption.
Qed.

(** X12. The calls of one [createAppointmentFor] are, in this order: the
    lookup of the hospital by its coordinates; at most one insert of the
    hospital; at most one request for the user; and, only after both lookups
    of the user's profile and latest assessment, at most one insert of an
    appointment, which is the last call, has status "pending" and carries
    the note kept for the hospital's key. *)
Theorem booking_call_protocol h st w :
  exists ins rest,
    calls (createAppointmentFor h st w).2 =
      calls w ++ SelectHospital (latitude h) (longitude h) :: ins ++ rest
    /\ (ins = [] \/ ins = [InsertHospital (toPayload h)])
    /\ (rest = [] /\ ins = [InsertHospital (toPayload h)]
        \/ rest = [GetUser]
        \/ exists u a,
             rest = [GetUser; SelectProfile (uid u); SelectAssessment (uid u);
                     InsertAppointment a]
             /\ status a = "pending"
             /\ notes a = notesMap st !! toKey h).
Proof.
  destruct (booking_paths h st w) as (ins & rest & Hcalls & Hins & Hrest).
  exists ins, rest. split; [exact Hcalls|]. split.
  - destruct Hins as [[-> _]|[-> _]]; auto.
  - destruct Hrest as [(-> & Hf & _)|[->|(u & a & -> & Hs & Hn & _)]].
    + left. split; [reflexivity|].
      destruct Hins as [[_ Ht]|[-> _]]; [congruence | reflexivity].
    + right. left. reflexivity.
    + right. right. exists u, a. auto.
Qed.

(** X13. The appointment a [createAppointmentFor] inserts refers to the
    hospital by the id the lookup found, when that id is truthy, and then
    no hospital is inserted; otherwise by the id of the first row the insert
    of the hospital returned, or by null when it returned no row. *)
Theorem booking_hospital_reference h st w (new : list Call) (a : Appointment) :
  calls (createAppointmentFor h st w).2 = calls w ++ new ->
  In (InsertAppointment a) new ->
  let sel := selectHospital (latitude h) (longitude h) (backend w) in
  if identTruthy (firstId sel.2) then
    hospital_id a = firstId sel.2
    /\ ~ In (InsertHospital (toPayload h)) new
  else
    In (InsertHospital (toPayload h)) new
    /\ hospital_id a =
         match (insertHospital (toPayload h) sel.1).2 with
         | Success (Some (r :: _)) => db_id r
         | _ => None
         end.
Proof.
  intros Hnew Hin sel. subst sel.
  destruct (booking_paths h st w) as (ins & rest & Hcalls & Hins & Hrest).
  rewrite Hnew in Hcalls. apply app_inv_head in Hcalls. subst new.
  assert (Hrest' : exists u,
            rest = [GetUser; SelectProfile (uid u); SelectAssessment (uid u);
                    InsertAppointment a]
            /\ hospital_id a =
                 if identTruthy
                      (firstId (selectHospital (latitude h) (longitude h) (backend w)).2)
                 then firstId (selectHospital (latitude h) (longitude h) (backend w)).2
                 else match (insertHospital (toPayload h)
                               (selectHospital (latitude h) (longitude h) (backend w)).1).2
                      with
                      | Success (Some (r :: _)) => db_id r
                      | _ => None
                      end).
  { destruct Hrest as [(-> & _)|[->|(u & a' & -> & _ & _ & Hh)]].
    - exfalso. rewrite app_nil_r in Hin.
      destruct Hins as [[-> _]|[-> _]]; cbn in Hin;
        intuition discriminate.
    - exfalso. destruct Hins as [[-> _]|[-> _]]; cbn in Hin;
        intuition discriminate.
    - assert (a' = a).
      { destruct Hins as [[-> _]|[-> _]]; cbn in Hin;
          intuition (try discriminate); congruence. }
      subst a'. exists u. auto. }
  destruct Hrest' as (u & -> & Hh).
  destruct Hins as [[-> Hf]|[-> Hf]]; rewrite Hf in *.
  - split; [exact Hh|]. cbn. intuition discriminate.
  - split; [|exact Hh]. right. left. reflexivity.
Qed.

(** X14. [createAppointmentFor] changes neither the list of hospitals, the
    error nor the syncing flag, nor the note and the processing flag of any
    other key: after it the confirm button is enabled for the hospitals with
    the key of the one booked and as before for the others.  It always
    leaves a message: the one of success, with the note of the hospital's key
    deleted and no note open, or one of failure, with the notes and the open
    note as they were. *)
Theorem booking_frame h st w :
  let r := createAppointmentFor h st w in
  hospitals r.1 = hospitals st
  /\ error r.1 = error st
  /\ syncing r.1 = syncing st
  /\ (forall k, k <> toKey h ->
        processingMap r.1 !! k = processingMap st !! k
        /\ notesMap r.1 !! k = notesMap st !! k)
  /\ (forall h', processing h' r.1 =
                 if decide (toKey h' = toKey h) then false else processing h' st)
  /\ ((message r.1 = Some "Appointment created (status: pending)."
       /\ notesMap r.1 = delete (toKey h) (notesMap st)
       /\ openNoteIdx r.1 = None)
      \/ ((exists msg, message r.1 = Some ("Error creating appointment: " +:+ msg))
          /\ notesMap r.1 = notesMap st
          /\ openNoteIdx r.1 = openNoteIdx st)).
Proof.
  cbn zeta. rewrite createAppointmentFor_result.
  assert (Hproc : forall st2 h',
            processingMap st2 = <[toKey h:=true]> (processingMap st) ->
            processing h' (setProcessingMap (insert (toKey h) false) st2) =
            if decide (toKey h' = toKey h) then false else processing h' st).
  { intros st2 h' Hst2. unfold processing. cbn [processingMap setProcessingMap].
    rewrite Hst2. destruct (decide (toKey h' = toKey h)) as [->|Hne].
    - rewrite lookup_insert_eq. reflexivity.
    - rewrite !lookup_insert_ne by congruence. reflexivity. }
  destruct (createBody h (toKey h) st w) as [w1 [msg|[]]]; cbn [fst];
    repeat split; try reflexivity.
  - cbn. rewrite !lookup_insert_ne by congruence. reflexivity.
  - intros h'. apply Hproc. reflexivity.
  - right. split; [exists (shown msg); reflexivity|]. split; reflexivity.
  - cbn. rewrite !lookup_insert_ne by congruence. reflexivity.
  - cbn. rewrite lookup_delete_ne by congruence. reflexivity.
  - intros h'. apply Hproc. reflexivity.
  - left. repeat split.
Qed.

(** X15. The note typed for a hospital is shown for every hospital with the
    same key and for no other; it is the note of the appointment then
    inserted for that hospital; and once an appointment has been created the
    note field of the key is empty again. *)
Theorem note_typed_is_note_sent h st w (value : string) :
  (forall h', noteShown h' (handleNoteChange h value st) =
              if decide (toKey h' = toKey h) then value else noteShown h' st)
  /\ (forall new a,
        calls (createAppointmentFor h (handleNoteChange h value st) w).2
          = calls w ++ new ->
        In (InsertAppointment a) new -> notes a = Some value)
  /\ (message (createAppointmentFor h (handleNoteChange h value st) w).1
        = Some "Appointment created (status: pending)." ->
      noteShown h (createAppointmentFor h (handleNoteChange h value st) w).1 = "").
Proof.
  split; [|split].
  - intros h'. unfold noteShown, handleNoteChange. cbn [notesMap setNotesMap].
    destruct (decide (toKey h' = toKey h)) as [->|Hne].
    + rewrite lookup_insert_eq. reflexivity.
    + rewrite lookup_insert_ne by congruence. reflexivity.
  - intros new a Hnew Hin.
    destruct (booking_paths h (handleNoteChange h value st) w)
      as (ins & rest & Hcalls & Hins & Hrest).
    rewrite Hnew in Hcalls. apply app_inv_head in Hcalls. subst new.
    destruct Hrest as [(-> & _)|[->|(u & a' & -> & _ & Hn & _)]].
    + exfalso. rewrite app_nil_r in Hin.
      destruct Hins as [[-> _]|[-> _]]; cbn in Hin; intuition discriminate.
    + exfalso. destruct Hins as [[-> _]|[-> _]]; cbn in Hin;
        intuition discriminate.
    + assert (a' = a).
      { destruct Hins as [[-> _]|[-> _]]; cbn in Hin;
          intuition (try discriminate); congruence. }
      subst a'. rewrite Hn. unfold handleNoteChange. cbn [notesMap setNotesMap].
      apply lookup_insert_eq.
  - intros Hmsg. unfold noteShown.
    rewrite createAppointmentFor_result in *.
    destruct (createBody h (toKey h) (handleNoteChange h value st) w)
      as [w1 [msg|[]]]; cbn [fst] in *.
    + cbn in Hmsg. discriminate Hmsg.
    + cbn. rewrite lookup_delete_eq. reflexivity.
Qed.

End BookingPaths.

(** ** Location and sync *)

Section Location.

Context `{Runtime} {B : Type} `{Supabase B}.

Lemma sync_json_returns (elements : option (list Element)) (st : State) (w : World B) :
  (syncHospitalsAround (Json elements) st w).2 = None
  /\ syncing (syncHospitalsAround (Json elements) st w).1.1 = false.
Proof.
  destruct elements as [[|el elements]|]; try (split; reflexivity).
  rewrite sync_elements. split; reflexivity.
Qed.

(** X16. After [requestLocationAndSync], from a state that is not syncing,
    the loading flag is down and the message cleared.  Without a position
    (no geolocation, or its error callback) the matching error is shown,
    nothing is called and the list and the location stay as they were.
    With a position, the location is recorded; an answer that is not ok is
    shown as the error and leaves the list as it was; the "Sync hospitals"
    button is enabled again in every case but one: when the request to the
    provider is rejected, the syncing flag stays up and the button stays
    disabled. *)
Theorem location_and_sync_outcomes (located : Located) (fetched : Fetched)
  (pg : Page) (w : World B) :
  syncing (core pg) = false ->
  let r := requestLocationAndSync located fetched pg w in
  loading r.1 = false
  /\ message (core r.1) = None
  /\ match located with
     | Unsupported =>
         error (core r.1) = Some "Geolocation not supported by this browser."
         /\ calls r.2 = calls w
         /\ hospitals (core r.1) = hospitals (core pg)
         /\ userLocation r.1 = userLocation pg
         /\ syncDisabled r.1 = false
     | Unavailable =>
         error (core r.1)
           = Some "Unable to access location. Please allow location access."
         /\ calls r.2 = calls w
         /\ hospitals (core r.1) = hospitals (core pg)
         /\ userLocation r.1 = userLocation pg
         /\ syncDisabled r.1 = false
     | Position lat lon =>
         userLocation r.1 = Some (lat, lon)
         /\ match fetched with
            | Rejected reason =>
                error (core r.1) = Some ("Failed to sync hospitals: " +:+ reason)
                /\ hospitals (core r.1) = hospitals (core pg)
                /\ calls r.2 = calls w
                /\ syncDisabled r.1 = true
            | NotOk statusText =>
                error (core r.1)
                  = Some ("Failed to sync hospitals: Overpass API error: "
                          +:+ statusText)
                /\ hospitals (core r.1) = hospitals (core pg)
                /\ calls r.2 = calls w
                /\ syncDisabled r.1 = false
            | Json _ => syncDisabled r.1 = false
            end
     end.
Proof.
  intros Hidle. cbn zeta.
  destruct located as [| |lat lon].
  - cbn. rewrite Hidle. repeat split; reflexivity.
  - cbn. rewrite Hidle. repeat split; reflexivity.
  - destruct fetched as [reason|statusText|elements].
    + cbn. repeat split; reflexivity.
    + cbn. repeat split; reflexivity.
    + unfold requestLocationAndSync.
      pose proof (sync_json_returns elements
                    (core (setUserLocation (Some (lat, lon))
                             (onCore (setMessage None)
                                (onCore (setError None) (setLoading true pg)))))
                    w) as [Hret Hsync].
      pose proof (sync_frame (Json elements)
                    (core (setUserLocation (Some (lat, lon))
                             (onCore (setMessage None)
                                (onCore (setError None) (setLoading true pg)))))
                    w) as (Hmsg & _).
      destruct (syncHospitalsAround (Json elements) _ w) as [[st' w'] thrown].
      cbn [fst snd] in Hret, Hsync, Hmsg. subst thrown.
      cbn [fst snd loading core userLocation setLoading onCore setUserLocation].
      unfold syncDisabled.
      cbn [loading core setLoading onCore setUserLocation].
      rewrite Hsync, Hmsg. repeat split; reflexivity.
Qed.

End Location.

(** ** Reading a key back *)

Lemma append_cons (c : ascii) (a b : string) :
  String c a +:+ b = String c (a +:+ b).
Proof. reflexivity. Qed.

Lemma append_nil (b : string) : "" +:+ b = b.
Proof. reflexivity. Qed.

Lemma string_length_app (a b : string) :
  String.length (a +:+ b) = String.length a + String.length b.
Proof. induction a as [|c a IH]; simpl; [reflexivity | rewrite IH; reflexivity]. Qed.

Lemma zeros_length (k : nat) : String.length (zeros k) = k.
Proof. induction k as [|k IH]; simpl; [reflexivity | rewrite IH; reflexivity]. Qed.

Lemma substring_all (s : string) : substring 0 (String.length s) s = s.
Proof. induction s as [|c s IH]; simpl; [reflexivity | rewrite IH; reflexivity]. Qed.

Lemma substring_split (s : string) (a : nat) :
  a <= String.length s ->
  substring 0 a s +:+ substring a (String.length s - a) s = s.
Proof.
  revert a. induction s as [|c s IH]; intros a Ha.
  - simpl in Ha. assert (a = 0) as -> by lia. reflexivity.
  - destruct a as [|a].
    + rewrite Nat.sub_0_r, substring_all. reflexivity.
    + simpl in Ha. simpl.
      change (String c (substring 0 a s +:+ substring a (String.length s - a) s)
              = String c s).
      f_equal. apply IH. lia.
Qed.

Lemma undot_app (a b : string) : undot (a +:+ b) = undot a +:+ undot b.
Proof.
  induction a as [|c a IH]; simpl; [reflexivity|].
  destruct (Ascii.eqb c "."); simpl; rewrite IH; reflexivity.
Qed.

Lemma allPlain_app (a b : string) :
  allPlain (a +:+ b) = allPlain a && allPlain b.
Proof.
  induction a as [|c a IH]; simpl; [reflexivity|].
  rewrite IH, andb_assoc. reflexivity.
Qed.

Lemma allPlain_substring (s : string) (a b : nat) :
  allPlain s = true -> allPlain (substring a b s) = true.
Proof.
  revert a b. induction s as [|c s IH]; intros a b Hs.
  - destruct a, b; reflexivity.
  - simpl in Hs. apply andb_true_iff in Hs as [Hc Hs].
    destruct a as [|a]; simpl.
    + destruct b as [|b]; simpl; [reflexivity|].
      rewrite Hc. apply IH, Hs.
    + apply IH, Hs.
Qed.

Lemma allPlain_zeros (k : nat) : allPlain (zeros k) = true.
Proof. induction k as [|k IH]; simpl; [reflexivity | exact IH]. Qed.

(** The digits of a number: plain characters without a point, which read
    back as the number. *)
Lemma digits_uint (d : Decimal.uint) :
  allPlain (NilEmpty.string_of_uint d) = true
  /\ undot (NilEmpty.string_of_uint d) = NilEmpty.string_of_uint d.
Proof. induction d as [|d [IH1 IH2]|d [IH1 IH2]|d [IH1 IH2]|d [IH1 IH2]|d [IH1 IH2]
                       |d [IH1 IH2]|d [IH1 IH2]|d [IH1 IH2]|d [IH1 IH2]|d [IH1 IH2]];
    simpl; try rewrite IH2; split; auto.
Qed.

Lemma digits_as_uint (n : Z) :
  digits n = NilEmpty.string_of_uint (N.to_uint (Z.to_N n)).
Proof.
  unfold digits, NilZero.string_of_uint.
  destruct (N.to_uint (Z.to_N n)) eqn:Hd; try reflexivity.
  exfalso. destruct (Z.to_N n) as [|p]; [discriminate Hd|].
  cbn in Hd. pose proof (DecimalPos.Unsigned.to_uint_nonnil p) as Hnn.
  congruence.
Qed.

Lemma read_zeros (k : nat) (s : string) :
  option_map N.of_uint (NilEmpty.uint_of_string (zeros k +:+ s))
  = option_map N.of_uint (NilEmpty.uint_of_string s).
Proof.
  induction k as [|k IH]; simpl; [reflexivity|].
  rewrite <- IH. destruct (NilEmpty.uint_of_string (zeros k +:+ s)); reflexivity.
Qed.

(** The characters of a rendering, and the number it reads back as. *)
Lemma pointed_read (n : Z) :
  allPlain (pointed 6 n) = true
  /\ option_map N.of_uint (NilEmpty.uint_of_string (undot (pointed 6 n)))
     = Some (Z.to_N n).
Proof.
  unfold pointed. rewrite digits_as_uint.
  set (d := N.to_uint (Z.to_N n)).
  destruct (digits_uint d) as [Hplain Hundot].
  set (m := if (String.length (NilEmpty.string_of_uint d) <=? 6)%nat
            then zeros (6 + 1 - String.length (NilEmpty.string_of_uint d))
                 +:+ NilEmpty.string_of_uint d
            else NilEmpty.string_of_uint d).
  assert (Hm_plain : allPlain m = true).
  { subst m. destruct (_ <=? 6)%nat; [|exact Hplain].
    rewrite allPlain_app, allPlain_zeros, Hplain. reflexivity. }
  assert (Hm_len : 6 <= String.length m).
  { subst m. destruct (Nat.leb_spec (String.length (NilEmpty.string_of_uint d)) 6);
      [|lia]. rewrite string_length_app, zeros_length. lia. }
  assert (Hm_undot : undot m = m).
  { subst m. destruct (_ <=? 6)%nat; [|exact Hundot].
    rewrite undot_app, Hundot. f_equal.
    generalize (6 + 1 - String.length (NilEmpty.string_of_uint d)).
    intros k. induction k as [|k IH]; simpl; [reflexivity | rewrite IH; reflexivity]. }
  assert (Hm_read : option_map N.of_uint (NilEmpty.uint_of_string m) = Some (Z.to_N n)).
  { subst m. destruct (_ <=? 6)%nat; [rewrite read_zeros|];
      rewrite NilEmpty.usu; cbn [option_map]; subst d;
      rewrite DecimalN.Unsigned.of_to; reflexivity. }
  split.
  - rewrite !allPlain_app, !allPlain_substring by exact Hm_plain. reflexivity.
  - rewrite !undot_app. cbn [undot Ascii.eqb Bool.eqb].
    change ("" +:+ undot (substring (String.length m - 6) 6 m))
      with (undot (substring (String.length m - 6) 6 m)).
    rewrite <- undot_app.
    assert (Hsplit : substring 0 (String.length m - 6) m
                     +:+ substring (String.length m - 6) 6 m = m).
    { pose proof (substring_split m (String.length m - 6)) as Hs.
      replace (String.length m - (String.length m - 6)) with 6 in Hs by lia.
      apply Hs. lia. }
    rewrite Hsplit, Hm_undot. exact Hm_read.
Qed.

Lemma plain_not_bar_nor_minus (c : ascii) :
  plain c = true -> Ascii.eqb c "|" = false /\ Ascii.eqb c "-" = false.
Proof.
  destruct c as [[] [] [] [] [] [] [] []]; cbn; intros Hp;
    (discriminate Hp || (split; reflexivity)).
Qed.

Lemma beforeBar_afterBar (x y : string) :
  allPlain x = true ->
  beforeBar (x +:+ "|" +:+ y) = x /\ afterBar (x +:+ "|" +:+ y) = y.
Proof.
  induction x as [|c x IH]; intros Hx.
  - split; reflexivity.
  - simpl in Hx. apply andb_true_iff in Hx as [Hc Hx].
    destruct (plain_not_bar_nor_minus c Hc) as [Hbar _].
    destruct (IH Hx) as [IH1 IH2]. rewrite append_cons.
    cbn [beforeBar afterBar]. rewrite Hbar, IH1, IH2.
    split; reflexivity.
Qed.

Lemma beforeBar_signed (neg : bool) (x y : string) :
  allPlain x = true ->
  beforeBar (((if neg then "-" else "") +:+ x) +:+ "|" +:+ y)
    = (if neg then "-" else "") +:+ x
  /\ afterBar (((if neg then "-" else "") +:+ x) +:+ "|" +:+ y) = y.
Proof.
  intros Hx. destruct (beforeBar_afterBar x y Hx) as [H1 H2].
  destruct neg; [|rewrite append_nil; split; assumption].
  change (("-" +:+ x) +:+ "|" +:+ y) with (String "-" (x +:+ "|" +:+ y)).
  cbn [beforeBar afterBar Ascii.eqb Bool.eqb].
  rewrite H1, H2. split; reflexivity.
Qed.

Lemma readFixed_signed (neg : bool) (n : Z) :
  readFixed ((if neg then "-" else "") +:+ pointed 6 n) = (neg, Some (Z.to_N n)).
Proof.
  destruct (pointed_read n) as [Hplain Hread].
  destruct neg.
  - change ("-" +:+ pointed 6 n) with (String "-" (pointed 6 n)).
    cbn [readFixed]. rewrite Hread. reflexivity.
  - rewrite append_nil. unfold readFixed. destruct (pointed 6 n) as [|c p] eqn:Hp.
    + cbn in Hread |- *. rewrite Hread. reflexivity.
    + simpl in Hplain. apply andb_true_iff in Hplain as [Hc _].
      destruct (plain_not_bar_nor_minus c Hc) as [_ Hminus].
      destruct c as [[] [] [] [] [] [] [] []]; try discriminate Hminus;
        rewrite Hread; reflexivity.
Qed.

Lemma roundsTo6_nonneg (neg : bool) (n : Z) (x : number) :
  roundsTo6 neg n x -> (0 <= n)%Z.
Proof.
  intros (q & _ & _ & _ & _ & Hhi).
  assert (Hpos : (0 <= Qabs q * inject_Z (10 ^ 6))%Q).
  { apply Qmult_le_0_compat; [apply Qabs_nonneg | discriminate]. }
  assert (Hlt : (inject_Z (-1) < inject_Z n)%Q).
  { apply (Qplus_lt_l _ _ (1 # 2)). eapply Qlt_trans; [|exact Hhi].
    eapply Qlt_le_trans; [|exact Hpos]. reflexivity. }
  rewrite <- Zlt_Qlt in Hlt. lia.
Qed.

Section ReadKey.

Context `{Runtime}.

(** X17. A key reads back as what its coordinates round to: for each
    coordinate, whether it is negative and its magnitude rounded to the sixth
    decimal.  So two coordinate pairs with the same key have latitudes of the
    same sign that round to the same sixth decimal, and longitudes that do:
    deduplication and merge never take two records for one unless both
    coordinates agree to within a millionth of a degree. *)
Theorem coordKey_determines_rounding (sLat sLon : bool) (nLat nLon : Z)
  (lat lon : number) :
  roundsTo6 sLat nLat lat -> roundsTo6 sLon nLon lon ->
  readKey (coordKey lat lon)
    = ((sLat, Some (Z.to_N nLat)), (sLon, Some (Z.to_N nLon)))
  /\ forall (sLat' sLon' : bool) (nLat' nLon' : Z) (lat' lon' : number),
       roundsTo6 sLat' nLat' lat' -> roundsTo6 sLon' nLon' lon' ->
       coordKey lat lon = coordKey lat' lon' ->
       sLat = sLat' /\ nLat = nLat' /\ sLon = sLon' /\ nLon = nLon'.
Proof.
  assert (Hread : forall s t n m x y,
            roundsTo6 s n x -> roundsTo6 t m y ->
            readKey (coordKey x y) = ((s, Some (Z.to_N n)), (t, Some (Z.to_N m)))).
  { intros s t n m x y Hx Hy. unfold readKey, coordKey.
    rewrite (toFixed_roundsTo6 s n x Hx), (toFixed_roundsTo6 t m y Hy).
    destruct (pointed_read n) as [Hplain _].
    destruct (beforeBar_signed s (pointed 6 n)
                ((if t then "-" else "") +:+ pointed 6 m) Hplain) as [Hb Ha].
    rewrite Hb, Ha, !readFixed_signed. reflexivity. }
  intros Hlat Hlon. split; [apply Hread; assumption|].
  intros sLat' sLon' nLat' nLon' lat' lon' Hlat' Hlon' Hkey.
  pose proof (Hread _ _ _ _ _ _ Hlat Hlon) as H1.
  pose proof (Hread _ _ _ _ _ _ Hlat' Hlon') as H2.
  rewrite Hkey, H2 in H1. injection H1 as Hs Hn Ht Hm.
  pose proof (roundsTo6_nonneg _ _ _ Hlat). pose proof (roundsTo6_nonneg _ _ _ Hlon).
  pose proof (roundsTo6_nonneg _ _ _ Hlat'). pose proof (roundsTo6_nonneg _ _ _ Hlon').
  repeat split; try congruence; lia.
Qed.

End ReadKey.

(** ** When every upsert fails *)

Section AllFail.

Context `{Runtime} {B : Type} `{Supabase B}.

Lemma fold_step_all_fail (e : Err.t) (cs : list (list HospitalRow))
  (st : State) (w : World B) :
  (forall p b, (upsertHospitals p b).2 = Failure e) ->
  hospitals (fold_left step cs (st, w)).1 = hospitals st
  /\ error (fold_left step cs (st, w)).1 =
       match cs with
       | [] => error st
       | _ :: _ => Some ("Supabase upsert error: " +:+ Err.message e)
       end.
Proof.
  intros Hfail. revert st w. induction cs as [|c cs IH]; intros st w;
    cbn [fold_left]; [split; reflexivity|].
  change (step (st, w) c) with (upsertChunk c st w).
  assert (Hc : (upsertChunk c st w).1
               = setError (Some ("Supabase upsert error: " +:+ Err.message e)) st).
  { unfold upsertChunk. specialize (Hfail (map toPayload c) (backend w)).
    destruct (upsertHospitals (map toPayload c) (backend w)) as [b ans].
    cbn [snd] in Hfail. subst ans. reflexivity. }
  destruct (upsertChunk c st w) as [st1 w1]. cbn [fst] in Hc. subst st1.
  destruct (IH (setError (Some ("Supabase upsert error: " +:+ Err.message e)) st) w1)
    as [Hh He].
  rewrite Hh, He. split; [reflexivity|]. destruct cs; reflexivity.
Qed.

(** X18. When the provider gives usable elements and every upsert fails
    with the same error, the run still returns normally with the syncing flag
    down; it shows that error, and exposes the list it started from, or the
    deduplicated records when that list was empty. *)
Theorem sync_all_upserts_fail (e : Err.t) (elements : list Element)
  (st : State) (w : World B) :
  (forall p b, (upsertHospitals p b).2 = Failure e) ->
  normalize elements <> [] ->
  let r := syncHospitalsAround (Json (Some elements)) st w in
  r.2 = None
  /\ syncing r.1.1 = false
  /\ error r.1.1 = Some ("Supabase upsert error: " +:+ Err.message e)
  /\ hospitals r.1.1 = fallback (dedupe (normalize elements)) (hospitals st).
Proof.
  intros Hfail Hne. cbn zeta.
  destruct elements as [|el elements]; [contradiction Hne; reflexivity|].
  rewrite sync_elements. cbn [fst snd]. rewrite reconcile_chunks.
  cbn [fst error syncing hospitals setSyncing setHospitals].
  destruct (fold_step_all_fail e (chunksOf (dedupe (normalize (el :: elements))))
              (setError None (setSyncing true st)) w Hfail) as [Hh He].
  rewrite Hh, He. repeat split; try reflexivity.
  destruct (chunksOf (dedupe (normalize (el :: elements)))) as [|c cs] eqn:Hcs;
    [|reflexivity].
  exfalso. pose proof (chunksOf_concat (dedupe (normalize (el :: elements)))) as Hcat.
  rewrite Hcs in Hcat. change (concat []) with (@nil HospitalRow) in Hcat.
  destruct (normalize (el :: elements)) as [|x l]; [congruence|].
  assert (Hin : In (toKey x) (map toKey (dedupe (x :: l))))
    by (apply dedupe_key_set; left; reflexivity).
  rewrite <- Hcat in Hin. destruct Hin.
Qed.

End AllFail.

(** * The further properties at the sample inputs *)

(** The first sample element normalises to a well-formed record. *)
Lemma normalize_records_well_formed_witness :
  In Sample.hospitalA (normalize [Sample.elementA; Sample.elementB])
  /\ row_id Sample.hospitalA = None
  /\ truthy (latitude Sample.hospitalA) = true
  /\ truthy (longitude Sample.hospitalA) = true
  /\ name Sample.hospitalA <> ""
  /\ address Sample.hospitalA <> Some ""
  /\ phone Sample.hospitalA <> Some ""
  /\ specialities Sample.hospitalA <> Some ""
  /\ emergency_available Sample.hospitalA <> None.
Proof.
  assert (Hin : In Sample.hospitalA (normalize [Sample.elementA; Sample.elementB]))
    by (left; reflexivity).
  split; [exact Hin|].
  exact (normalize_records_well_formed _ _ Hin).
Defined.

(** An element with a street and a city: its address is their join. *)
Lemma mapElement_address_witness :
  mapElement Sample.elementStreet = Some Sample.hospitalStreet
  /\ (address Sample.hospitalStreet = None <->
        stringTruthy (tag tag_addr_full Sample.elementStreet) = false
        /\ stringTruthy (tag tag_addr_street Sample.elementStreet) = false
        /\ stringTruthy (tag tag_addr_housenumber Sample.elementStreet) = false
        /\ stringTruthy (tag tag_addr_city Sample.elementStreet) = false
        /\ stringTruthy (tag tag_description Sample.elementStreet) = false).
Proof.
  split; [reflexivity|].
  exact (proj2 (mapElement_address Sample.elementStreet Sample.hospitalStreet eq_refl)).
Defined.

(** A run over the two sample elements from a list of one hospital. *)
Lemma sync_keeps_keys_distinct_witness :
  NoDup (map (@toKey Sample.runtime)
           (hospitals
              (@syncHospitalsAround Sample.runtime nat Sample.secondUpsertFails
                 (Json (Some [Sample.elementA; Sample.elementB]))
                 Sample.staleState (Sample.world 0)).1.1)).
Proof.
  apply (@sync_keeps_keys_distinct Sample.runtime nat Sample.secondUpsertFails).
  apply NoDup_singleton.
Defined.

(** An answer whose only element has no coordinates. *)
Lemma sync_nothing_usable_witness :
  hospitals (@syncHospitalsAround Sample.runtime nat Sample.signedOut
               (Json (Some [Sample.elementNowhere]))
               Sample.staleState (Sample.world 0)).1.1
    = hospitals Sample.staleState
  /\ calls (@syncHospitalsAround Sample.runtime nat Sample.signedOut
              (Json (Some [Sample.elementNowhere]))
              Sample.staleState (Sample.world 0)).1.2
     = [].
Proof.
  destruct (@sync_nothing_usable Sample.runtime nat Sample.signedOut
              [Sample.elementNowhere] Sample.staleState (Sample.world 0)
              ltac:(discriminate) eq_refl) as (Hh & Hc & _).
  split; [exact Hh | exact Hc].
Defined.

(** A click on "Clear", then a run against a store that is down. *)
Lemma sync_fallback_after_clear_witness :
  hospitals (@syncHospitalsAround Sample.runtime nat Sample.storeDown
               (Json (Some [Sample.elementA; Sample.elementB]))
               (clearAll Sample.staleState) (Sample.world 0)).1.1
    = @dedupe Sample.runtime (normalize [Sample.elementA; Sample.elementB]).
Proof.
  exact (proj1 (@sync_fallback_after_clear Sample.runtime nat Sample.storeDown
                  (Some [Sample.elementA; Sample.elementB])
                  Sample.staleState (Sample.world 0) (fun p b => I))).
Defined.

(** A run against a store that writes every chunk. *)
Lemma sync_error_reporting_witness :
  error (@syncHospitalsAround Sample.runtime nat Sample.signedOut
           (Json (Some [Sample.elementA; Sample.elementB]))
           Sample.staleState (Sample.world 0)).1.1
    = None
  /\ syncing (@syncHospitalsAround Sample.runtime nat Sample.signedOut
                (Json (Some [Sample.elementA; Sample.elementB]))
                Sample.staleState (Sample.world 0)).1.1
     = false
  /\ (@syncHospitalsAround Sample.runtime nat Sample.signedOut
        (Json (Some [Sample.elementA; Sample.elementB]))
        Sample.staleState (Sample.world 0)).2
     = None.
Proof.
  exact (@sync_error_reporting Sample.runtime nat Sample.signedOut
           (Json (Some [Sample.elementA; Sample.elementB]))
           Sample.staleState (Sample.world 0)
           (fun p b => ex_intro _ _ eq_refl)).
Defined.

(** A booking for a hospital the store knows under id 5. *)
Lemma booking_hospital_reference_witness :
  hospital_id
    {| user_id := Some (IdStr "alice"); hospital_id := Some (IdNum 5);
       assessment_id := None; notes := None; status := "pending" |}
    = Some (IdNum 5)
  /\ ~ In (InsertHospital (toPayload Sample.hospitalA))
         [SelectHospital Sample.lat40 Sample.lon73; GetUser;
          SelectProfile "alice"; SelectAssessment "alice";
          InsertAppointment
            {| user_id := Some (IdStr "alice"); hospital_id := Some (IdNum 5);
               assessment_id := None; notes := None; status := "pending" |}].
Proof.
  exact (@booking_hospital_reference Sample.runtime nat Sample.noProfile
           Sample.hospitalA Sample.emptyState (Sample.world 0) _ _
           eq_refl ltac:(do 4 right; left; reflexivity)).
Defined.

(** The first run, with a position, when the request to the provider is
    rejected. *)
Lemma location_and_sync_outcomes_witness :
  loading (@requestLocationAndSync Sample.runtime nat Sample.signedOut
             (Position Sample.lat40 Sample.lon73) (Rejected "Failed to fetch")
             initialPage (Sample.world 0)).1
    = false
  /\ syncDisabled (@requestLocationAndSync Sample.runtime nat Sample.signedOut
                     (Position Sample.lat40 Sample.lon73) (Rejected "Failed to fetch")
                     initialPage (Sample.world 0)).1
     = true
  /\ error (core (@requestLocationAndSync Sample.runtime nat Sample.signedOut
                    (Position Sample.lat40 Sample.lon73) (Rejected "Failed to fetch")
                    initialPage (Sample.world 0)).1)
     = Some "Failed to sync hospitals: Failed to fetch".
Proof.
  destruct (@location_and_sync_outcomes Sample.runtime nat Sample.signedOut
              (Position Sample.lat40 Sample.lon73) (Rejected "Failed to fetch")
              initialPage (Sample.world 0) eq_refl)
    as (Hload & _ & _ & Herr & _ & _ & Hdis).
  split; [exact Hload|]. split; [exact Hdis | exact Herr].
Defined.

(** The key of the sample position reads back as 40.000000 and -73.000000. *)
Lemma coordKey_determines_rounding_witness :
  readKey (@coordKey Sample.runtime Sample.lat40 Sample.lon73)
    = ((false, Some 40000000%N), (true, Some 73000000%N)).
Proof.
  refine (proj1 (@coordKey_determines_rounding Sample.runtime false true
                   40000000 73000000 Sample.lat40 Sample.lon73 _ _));
    rounds_to.
Defined.

(** A run over the first sample element against a store that is down. *)
Lemma sync_all_upserts_fail_witness :
  error (@syncHospitalsAround Sample.runtime nat Sample.storeDown
           (Json (Some [Sample.elementA])) Sample.staleState (Sample.world 0)).1.1
    = Some "Supabase upsert error: timeout"
  /\ hospitals (@syncHospitalsAround Sample.runtime nat Sample.storeDown
                  (Json (Some [Sample.elementA])) Sample.staleState
                  (Sample.world 0)).1.1
     = hospitals Sample.staleState.
Proof.
  destruct (@sync_all_upserts_fail Sample.runtime nat Sample.storeDown
              Sample.timeout [Sample.elementA] Sample.staleState (Sample.world 0)
              (fun p b => eq_refl) ltac:(discriminate))
    as (_ & _ & Herr & Hh).
  split; [exact Herr | exact Hh].
Defined.
